(** * tuifeed: cache store, feed normaliser and merge step

    A shallow embedding of [tuifeed.py].  Python values that reach the
    program through [json.load] are modelled by [pyval]; exceptions by the
    [result] monad; Python sets by [gset] over hash keys; the clock, the
    ISO-8601 codec, the HTTP client and the syndication parser, which the
    script imports, are the methods of the [Platform] class. *)

From Stdlib Require Import ZArith Lia Ascii String.
From stdpp Require Import base gmap sets list strings.

#[local] Set Warnings "-register-all".
Local Open Scope Z_scope.
Local Open Scope string_scope.
Local Open Scope list_scope.

(** ** Exceptions and the result monad *)

Inductive exn :=
  | KeyError
  | TypeError
  | ValueError
  | AttributeError
  | OSError
  | JSONDecodeError
  | HTTPError
  | OverflowError.

Inductive result (A : Type) :=
  | Ok (a : A)
  | Raise (e : exn).
Arguments Ok {A} a.
Arguments Raise {A} e.

Definition bind {A B} (m : result A) (k : A -> result B) : result B :=
  match m with
  | Ok a => k a
  | Raise e => Raise e
  end.

Notation "'let*' x ':=' m 'in' k" := (bind m (fun x => k))
  (at level 10, x name, m at level 100, k at level 200).

(** [try: body except Exception: handler] *)
Definition try_except {A} (body : result A) (handler : exn -> result A) : result A :=
  match body with
  | Ok a => Ok a
  | Raise e => handler e
  end.

Definition is_ok {A} (r : result A) : bool :=
  match r with Ok _ => true | Raise _ => false end.

(** ** Python values

    The values [json.load] builds, numbers restricted to integers.  A dict
    keeps its items in insertion order, keys being strings as in JSON. *)

Inductive pyval :=
  | VNone
  | VBool (b : bool)
  | VInt (n : Z)
  | VStr (s : string)
  | VList (l : list pyval)
  | VDict (d : list (string * pyval)).

Fixpoint dict_lookup (d : list (string * pyval)) (k : string) : option pyval :=
  match d with
  | [] => None
  | (k', v) :: d' => if String.eqb k' k then Some v else dict_lookup d' k
  end.

(** [a[k]] for a string key [k] *)
Definition getitem (a : pyval) (k : string) : result pyval :=
  match a with
  | VDict d =>
      match dict_lookup d k with
      | Some v => Ok v
      | None => Raise KeyError
      end
  | _ => Raise TypeError
  end.

(** [a.get(k, default)] *)
Definition py_get (a : pyval) (k : string) (default : pyval) : result pyval :=
  match a with
  | VDict d =>
      match dict_lookup d k with
      | Some v => Ok v
      | None => Ok default
      end
  | _ => Raise AttributeError
  end.

(** The items a [for] loop or a comprehension draws from a value. *)
Definition py_iter (v : pyval) : result (list pyval) :=
  match v with
  | VList l => Ok l
  | VDict d => Ok (map (fun kv => VStr (fst kv)) d)
  | VStr s => Ok (map (fun c => VStr (String c EmptyString)) (list_ascii_of_string s))
  | _ => Raise TypeError
  end.

(** [bool(v)] *)
Definition truthy (v : pyval) : bool :=
  match v with
  | VNone => false
  | VBool b => b
  | VInt n => negb (Z.eqb n 0)
  | VStr s => negb (String.eqb s "")
  | VList l => match l with [] => false | _ => true end
  | VDict d => match d with [] => false | _ => true end
  end.

(** [v == s] for a string literal [s] *)
Definition eq_str (v : pyval) (s : string) : bool :=
  match v with
  | VStr s' => String.eqb s' s
  | _ => false
  end.

(** ** Hash keys and sets

    Two hashable values are the same set element when they are equal under
    [==]: [None] only to itself, [True] to [1] and [False] to [0], strings
    by content.  Lists and dicts are unhashable. *)

Inductive hkey :=
  | KNone
  | KNum (n : Z)
  | KStr (s : string).

#[export] Instance hkey_eq_dec : EqDecision hkey.
Proof. solve_decision. Defined.

#[export] Instance hkey_countable : Countable hkey.
Proof.
  refine (inj_countable'
    (fun k => match k with
              | KNone => inl ()
              | KNum n => inr (inl n)
              | KStr s => inr (inr s)
              end)
    (fun x => match x with
              | inl _ => KNone
              | inr (inl n) => KNum n
              | inr (inr s) => KStr s
              end) _).
  by intros [].
Defined.

#[export] Instance exn_eq_dec : EqDecision exn.
Proof. solve_decision. Defined.

#[export] Instance result_eq_dec {A} `{EqDecision A} : EqDecision (result A).
Proof. solve_decision. Defined.

Definition hash_key (v : pyval) : result hkey :=
  match v with
  | VNone => Ok KNone
  | VBool b => Ok (KNum (if b then 1 else 0))
  | VInt n => Ok (KNum n)
  | VStr s => Ok (KStr s)
  | VList _ | VDict _ => Raise TypeError
  end.

(** [v in s] for a set [s] *)
Definition py_in (v : pyval) (s : gset hkey) : result bool :=
  let* k := hash_key v in Ok (bool_decide (k ∈ s)).

(** ** Dates

    A naive [datetime] is its number of microseconds on the local
    calendar; a [timedelta] is a number of microseconds.  A naive and an
    offset-aware value cannot be subtracted. *)

Inductive datetime :=
  | Naive (us : Z)
  | Aware (us : Z).

Definition dt_sub (a b : datetime) : result Z :=
  match a, b with
  | Naive x, Naive y => Ok (x - y)
  | Aware x, Aware y => Ok (x - y)
  | _, _ => Raise TypeError
  end.

Definition timedelta_hours (h : Z) : Z := h * 3600 * 1000000.

Record struct_time := {
  tm_year : Z; tm_mon : Z; tm_mday : Z;
  tm_hour : Z; tm_min : Z; tm_sec : Z;
  tm_wday : Z; tm_yday : Z; tm_isdst : Z
}.

(** ** Syndication parser results *)

(** [published_parsed] is [None] when the key is absent, [Some None] when
    the parser stored [None] under it. *)
Record entry := {
  entry_title : option string;
  entry_link : option string;
  published_parsed : option (option struct_time)
}.

Record parsed_feed := {
  bozo : bool;
  entries : list entry
}.

Record response := {
  status_code : Z;
  content : string
}.

(** ** Imported capabilities *)

Class Platform := {
  (** [datetime.fromisoformat] on a [str] *)
  fromisoformat : string -> result datetime;
  (** [isoformat] of a naive datetime *)
  isoformat : Z -> string;
  (** [time.mktime], in seconds *)
  mktime : struct_time -> result Z;
  (** [datetime.fromtimestamp], a naive local datetime *)
  fromtimestamp : Z -> result Z;
  (** [requests.get(url, headers=headers, timeout=10)] *)
  requests_get : pyval -> result response;
  (** [response.raise_for_status()] *)
  raise_for_status : response -> result unit;
  (** [feedparser.parse] *)
  feedparser_parse : string -> result parsed_feed
}.

(** ** Configuration *)

Definition MAX_AGE_HOURS : Z := 24.

(** ** The cache file *)

Inductive file_state :=
  | Missing                (* no file at CACHE_FILE *)
  | Unreadable             (* the file exists, opening it raises *)
  | Malformed              (* the file opens, its text is not JSON *)
  | Document (v : pyval).  (* the file holds the JSON text of [v] *)

(** [os.path.exists(CACHE_FILE)] *)
Definition path_exists (f : file_state) : bool :=
  match f with Missing => false | _ => true end.

(** [with open(CACHE_FILE, 'r') as f: json.load(f)] *)
Definition json_load_file (f : file_state) : result pyval :=
  match f with
  | Missing => Raise OSError
  | Unreadable => Raise OSError
  | Malformed => Raise JSONDecodeError
  | Document v => Ok v
  end.

Record disk := {
  cache_file : file_state;
  (** whether opening CACHE_FILE for writing succeeds *)
  writable : bool
}.

(** A [for] loop over [l] that threads the state [s] and stops at the
    first exception. *)
Fixpoint for_each {S A} (body : S -> A -> result S) (l : list A) (s : S) : result S :=
  match l with
  | [] => Ok s
  | a :: l' => let* s' := body s a in for_each body l' s'
  end.

(** A comprehension [[a for a in l if cond(a)]]: [cond] runs on every item
    in order and the first exception aborts the whole comprehension. *)
Fixpoint filter_r {A} (cond : A -> result bool) (l : list A) : result (list A) :=
  match l with
  | [] => Ok []
  | a :: l' =>
      let* b := cond a in
      let* rest := filter_r cond l' in
      Ok (if b then a :: rest else rest)
  end.

Section Program.
Context `{Platform}.

(** [datetime.fromisoformat(v)] *)
Definition py_fromisoformat (v : pyval) : result datetime :=
  match v with
  | VStr s => fromisoformat s
  | _ => Raise TypeError
  end.

(** [current_time - datetime.fromisoformat(a['timestamp'])] *)
Definition cache_age (current_time : Z) (a : pyval) : result Z :=
  let* ts := getitem a "timestamp" in
  let* published := py_fromisoformat ts in
  dt_sub (Naive current_time) published.

(** The condition of the comprehension in [read_cache]; [and] evaluates
    its right operand only when the left one is true. *)
Definition cache_valid (current_time : Z) (current_feed_names : gset hkey)
    (a : pyval) : result bool :=
  let* age := cache_age current_time a in
  if Z.leb age (timedelta_hours MAX_AGE_HOURS) then
    let* feed := getitem a "feed" in
    py_in feed current_feed_names
  else Ok false.

Definition read_cache (f : file_state) (now : Z) (current_feed_names : gset hkey)
    : result (list pyval) :=
  if negb (path_exists f) then Ok []
  else
    try_except
      (let* cache_data := json_load_file f in
       let* cached_articles := py_get cache_data "articles" (VList []) in
       let* items := py_iter cached_articles in
       filter_r (cache_valid now current_feed_names) items)
      (fun _ => Ok []).

(** ** Cache writing *)

(** [with open(CACHE_FILE, 'w') as f]: the directory exists by then, thanks
    to [os.makedirs(CACHE_DIR, exist_ok=True)]; the case in which
    [os.makedirs] raises is in [write_cache_call] below. *)
Definition open_for_writing (d : disk) : result unit :=
  if writable d then Ok tt else Raise OSError.

Definition write_cache (articles : list pyval) (now : Z) (d : disk) : disk :=
  let cache_data :=
    VDict [("timestamp", VStr (isoformat now)); ("articles", VList articles)] in
  match open_for_writing d with
  | Ok _ => {| cache_file := Document cache_data; writable := writable d |}
  | Raise _ => d
  end.

(** The disk after an [os.remove(CACHE_FILE)] that succeeds; the case in
    which it raises is in [os_remove] below. *)
Definition remove_cache (d : disk) : disk :=
  {| cache_file := Missing; writable := writable d |}.

(** ** Feed fetching *)

(** [datetime.fromtimestamp(time.mktime(entry.published_parsed))] *)
Definition published_time (e : entry) : result Z :=
  match published_parsed e with
  | None => Raise AttributeError
  | Some None => Raise TypeError
  | Some (Some st) => let* seconds := mktime st in fromtimestamp seconds
  end.

Definition make_article (name : pyval) (e : entry) (published : Z) : pyval :=
  VDict [("feed", name);
         ("title", VStr (default "No title" (entry_title e)));
         ("link", VStr (default "No link" (entry_link e)));
         ("timestamp", VStr (isoformat published))].

(** One round of the loop over [parsed_feed.entries]. *)
Definition normalize_entry (name : pyval) (current_time : Z)
    (new_articles : list pyval) (e : entry) : list pyval :=
  match published_parsed e with
  | None => new_articles
  | Some _ =>
      match published_time e with
      | Raise _ => new_articles
      | Ok published =>
          if Z.ltb (timedelta_hours MAX_AGE_HOURS) (current_time - published)
          then new_articles
          else new_articles ++ [make_article name e published]
      end
  end.

Definition normalize (name : pyval) (current_time : Z) (es : list entry) : list pyval :=
  fold_left (normalize_entry name current_time) es [].

(** The result of a fetch together with the URLs handed to [requests.get]. *)
Record fetched := {
  requested : list pyval;
  new_articles : list pyval
}.

Definition fetch_feed (feed : pyval) (now : Z) : result fetched :=
  let* name := py_get feed "name" VNone in
  let* url := py_get feed "url" VNone in
  if negb (truthy name) || negb (truthy url) then
    Ok {| requested := []; new_articles := [] |}
  else
    match (let* response := requests_get url in
           let* _ := raise_for_status response in
           feedparser_parse (content response)) with
    | Raise _ => Ok {| requested := [url]; new_articles := [] |}
    | Ok parsed =>
        if bozo parsed then Ok {| requested := [url]; new_articles := [] |}
        else Ok {| requested := [url];
                   new_articles := normalize name now (entries parsed) |}
    end.

(** ** The merge step of [main] *)

(** First loop: fresh articles. *)
Definition add_new (st : gset hkey * list pyval) (a : pyval)
    : result (gset hkey * list pyval) :=
  let '(seen_links, merged_articles) := st in
  let* link := getitem a "link" in
  let* k := hash_key link in
  if negb (bool_decide (k ∈ seen_links)) && negb (eq_str link "No link")
  then Ok ({[ k ]} ∪ seen_links, merged_articles ++ [a])
  else Ok st.

(** Second loop: cached articles. *)
Definition add_cached (current_feed_names : gset hkey)
    (st : gset hkey * list pyval) (a : pyval) : result (gset hkey * list pyval) :=
  let '(seen_links, merged_articles) := st in
  let* link := getitem a "link" in
  let* k := hash_key link in
  if negb (bool_decide (k ∈ seen_links)) && negb (eq_str link "No link") then
    let* feed := getitem a "feed" in
    let* known := py_in feed current_feed_names in
    if known then Ok ({[ k ]} ∪ seen_links, merged_articles ++ [a])
    else Ok st
  else Ok st.

Definition merge (new cached : list pyval) (current_feed_names : gset hkey)
    : result (list pyval) :=
  let* st := for_each add_new new (∅, []) in
  let* st := for_each (add_cached current_feed_names) cached st in
  Ok (snd st).

(** ** The commit at the end of [main]

    [now1] and [now2] are the clock readings of the two [write_cache]
    calls.  This is the commit in which neither [os.makedirs] nor
    [os.remove] raises; [main_commit] below has the exceptions. *)
Definition commit (merged_articles : list pyval) (now1 now2 : Z) (d : disk) : disk :=
  let d := write_cache merged_articles now1 d in
  if truthy (VList merged_articles) then write_cache merged_articles now2 d
  else if path_exists (cache_file d) then remove_cache d
  else d.

(** ** Predicates used in the statements *)

(** The hash key of [a['link']]: two articles carry the same link when
    their keys agree. *)
Definition link_key (a : pyval) : result hkey :=
  let* link := getitem a "link" in hash_key link.

Definition placeholder : hkey := KStr "No link".

(** The first article of [l] whose link has the key [k]. *)
Definition first_with_key (k : hkey) (l : list pyval) : option pyval :=
  snd <$> list_find (fun x => link_key x = Ok k) l.

Definition has_str (a : pyval) (k : string) : bool :=
  match getitem a k with
  | Ok (VStr _) => true
  | _ => false
  end.

(** The canonical article: a dict whose four fields are strings. *)
Definition is_article (a : pyval) : bool :=
  has_str a "feed" && has_str a "title" && has_str a "link" && has_str a "timestamp".

(** The timestamp field reads back as a naive datetime. *)
Definition timestamp_parses (a : pyval) : bool :=
  match getitem a "timestamp" with
  | Ok (VStr s) => match fromisoformat s with Ok (Naive _) => true | _ => false end
  | _ => false
  end.

Definition holds (r : result bool) : bool :=
  match r with
  | Ok true => true
  | _ => false
  end.

(** The age and feed conditions of the cache filter, on an article [a]. *)
Definition within_window (now : Z) (a : pyval) : Prop :=
  exists s t, getitem a "timestamp" = Ok (VStr s)
    /\ fromisoformat s = Ok (Naive t)
    /\ now - t <= timedelta_hours MAX_AGE_HOURS.

Definition feed_in (current_feed_names : gset hkey) (a : pyval) : Prop :=
  exists feed k, getitem a "feed" = Ok feed
    /\ hash_key feed = Ok k
    /\ k ∈ current_feed_names.

(** A record that makes the comprehension of [read_cache] raise: its
    timestamp is missing, is not a string, does not parse or parses to an
    offset-aware value; or it is within the window and its feed is missing
    or unhashable. *)
Inductive poisons (now : Z) (a : pyval) : Prop :=
  | timestamp_missing :
      getitem a "timestamp" = Raise KeyError -> poisons now a
  | timestamp_not_str v :
      getitem a "timestamp" = Ok v ->
      (forall s, v <> VStr s) -> poisons now a
  | timestamp_unparseable s e :
      getitem a "timestamp" = Ok (VStr s) ->
      fromisoformat s = Raise e -> poisons now a
  | timestamp_aware s t :
      getitem a "timestamp" = Ok (VStr s) ->
      fromisoformat s = Ok (Aware t) -> poisons now a
  | feed_missing :
      within_window now a ->
      getitem a "feed" = Raise KeyError -> poisons now a
  | feed_unhashable feed e :
      within_window now a ->
      getitem a "feed" = Ok feed ->
      hash_key feed = Raise e -> poisons now a.

(** The normaliser as the design words it: an entry is kept when its
    publish time parses and lies in [[now - window, now]]. *)
Definition normalize_spec (name : pyval) (now : Z) (es : list entry) : list pyval :=
  omap (fun e =>
          match published_time e with
          | Ok t =>
              if bool_decide (now - timedelta_hours MAX_AGE_HOURS <= t <= now)
              then Some (make_article name e t) else None
          | Raise _ => None
          end) es.

(** What one entry contributes to the article list. *)
Definition kept (name : pyval) (now : Z) (e : entry) : option pyval :=
  match published_time e with
  | Ok t =>
      if bool_decide (now - t <= timedelta_hours MAX_AGE_HOURS)
      then Some (make_article name e t) else None
  | Raise _ => None
  end.

(** An article the cache filter can judge at any time: its timestamp
    reads back as a naive datetime and its feed is hashable. *)
Definition storable (a : pyval) : bool :=
  timestamp_parses a && is_ok (let* feed := getitem a "feed" in hash_key feed).

(** What both loops of the merge maintain: [ks] lists the link keys of the
    merged articles in order, without repetition and without the
    placeholder, and [seen_links] is the set of these keys. *)
Definition merge_inv (ks : list hkey) (seen : gset hkey) (merged : list pyval) : Prop :=
  Forall2 (fun a k => link_key a = Ok k) merged ks
  /\ NoDup ks
  /\ (forall k, k ∈ seen <-> k ∈ ks)
  /\ placeholder ∉ ks.

(** A loop body either leaves the state alone or appends the article
    under a key that is new and is not the placeholder. *)
Definition admits (body : gset hkey * list pyval -> pyval ->
                          result (gset hkey * list pyval)) : Prop :=
  forall (seen : gset hkey) (merged : list pyval) a st',
    body (seen, merged) a = Ok st' ->
    st' = (seen, merged)
    \/ exists k, link_key a = Ok k /\ (k ∉ seen) /\ k <> placeholder
         /\ st' = ({[ k ]} ∪ seen, merged ++ [a]).

End Program.

(** ** A reference platform

    The local time zone is UTC and datetimes count microseconds from
    1970-01-01T00:00:00.  [isoformat] prints [YYYY-MM-DDTHH:MM:SS] with
    [.ffffff] appended when the microsecond is not zero; [fromisoformat]
    reads that format back, with an optional [+00:00] suffix that makes the
    value offset-aware.  The network and the syndication parser are finite
    tables. *)

Module Reference.

Definition days_from_civil (y m d : Z) : Z :=
  let y := if Z.leb m 2 then y - 1 else y in
  let era := y / 400 in
  let yoe := y - era * 400 in
  let mp := if Z.ltb 2 m then m - 3 else m + 9 in
  let doy := (153 * mp + 2) / 5 + d - 1 in
  let doe := yoe * 365 + yoe / 4 - yoe / 100 + doy in
  era * 146097 + doe - 719468.

Definition civil_from_days (z : Z) : Z * Z * Z :=
  let z := z + 719468 in
  let era := z / 146097 in
  let doe := z - era * 146097 in
  let yoe := (doe - doe / 1460 + doe / 36524 - doe / 146096) / 365 in
  let doy := doe - (365 * yoe + yoe / 4 - yoe / 100) in
  let mp := (5 * doy + 2) / 153 in
  let d := doy - (153 * mp + 2) / 5 + 1 in
  let m := if Z.ltb mp 10 then mp + 3 else mp - 9 in
  let y := yoe + era * 400 in
  (if Z.leb m 2 then y + 1 else y, m, d).

Definition is_leap (y : Z) : bool :=
  Z.eqb (y mod 4) 0 && (negb (Z.eqb (y mod 100) 0) || Z.eqb (y mod 400) 0).

Definition days_in_month (y m : Z) : Z :=
  if Z.eqb m 2 then (if is_leap y then 29 else 28)
  else if Z.eqb m 4 || Z.eqb m 6 || Z.eqb m 9 || Z.eqb m 11 then 30
  else 31.

Definition digit_char (n : Z) : ascii := ascii_of_nat (Z.to_nat (48 + n mod 10)).

(** [n] in decimal, zero-padded to [width] digits *)
Fixpoint pad (width : nat) (n : Z) (tail : string) : string :=
  match width with
  | O => tail
  | S w => pad w (n / 10) (String (digit_char n) tail)
  end.

Definition digit_value (c : ascii) : option Z :=
  let n := Z.of_nat (nat_of_ascii c) in
  if Z.leb 48 n && Z.leb n 57 then Some (n - 48) else None.

Fixpoint number (cs : list ascii) (acc : Z) : option Z :=
  match cs with
  | [] => Some acc
  | c :: cs' =>
      match digit_value c with
      | Some v => number cs' (10 * acc + v)
      | None => None
      end
  end.

Definition micros (y m d hh mm ss us : Z) : Z :=
  ((days_from_civil y m d * 86400 + hh * 3600 + mm * 60 + ss) * 1000000) + us.

Definition isoformat (t : Z) : string :=
  let secs := t / 1000000 in
  let us := t mod 1000000 in
  let '(y, m, d) := civil_from_days (secs / 86400) in
  let sod := secs mod 86400 in
  let frac := if Z.eqb us 0 then "" else String "."%char (pad 6 us "") in
  pad 4 y (String "-"%char (pad 2 m (String "-"%char (pad 2 d
    (String "T"%char (pad 2 (sod / 3600) (String ":"%char
      (pad 2 (sod / 60 mod 60) (String ":"%char (pad 2 (sod mod 60) frac)))))))))).

Definition field (cs : list ascii) (from len : nat) : option Z :=
  number (take len (drop from cs)) 0.

Definition sep_at (cs : list ascii) (i : nat) (c : ascii) : bool :=
  match cs !! i with
  | Some c' => Ascii.eqb c' c
  | None => false
  end.

Definition fromisoformat (s : string) : result datetime :=
  let cs := list_ascii_of_string s in
  let base := take 19 cs in
  let rest := drop 19 cs in
  match field cs 0 4, field cs 5 2, field cs 8 2,
        field cs 11 2, field cs 14 2, field cs 17 2 with
  | Some y, Some m, Some d, Some hh, Some mm, Some ss =>
      if Nat.eqb (length base) 19
         && sep_at cs 4 "-" && sep_at cs 7 "-" && sep_at cs 13 ":" && sep_at cs 16 ":"
         && Z.leb 1 y && Z.leb 1 m && Z.leb m 12
         && Z.leb 1 d && Z.leb d (days_in_month y m)
         && Z.ltb hh 24 && Z.ltb mm 60 && Z.ltb ss 60
      then
        let frac_len := if sep_at rest 0 "." then 7%nat else 0%nat in
        let us :=
          if sep_at rest 0 "." then
            (if Nat.eqb (length (take 6 (drop 1 rest))) 6 then field rest 1 6 else None)
          else Some 0 in
        let zone := string_of_list_ascii (drop frac_len rest) in
        match us with
        | Some us =>
            if String.eqb zone "" then Ok (Naive (micros y m d hh mm ss us))
            else if String.eqb zone "+00:00" then Ok (Aware (micros y m d hh mm ss us))
            else Raise ValueError
        | None => Raise ValueError
        end
      else Raise ValueError
  | _, _, _, _, _, _ => Raise ValueError
  end.

(** [time.mktime] in the UTC zone; the weekday, year-day and DST fields are
    not consulted. *)
Definition mktime (st : struct_time) : result Z :=
  Ok (days_from_civil (tm_year st) (tm_mon st) (tm_mday st) * 86400
      + tm_hour st * 3600 + tm_min st * 60 + tm_sec st).

Definition fromtimestamp (seconds : Z) : result Z := Ok (seconds * 1000000).

(** [requests.get]: a table from URL to response; an unknown host is a
    connection error, a URL that is not a string is rejected. *)
Definition requests_get (network : list (string * response)) (url : pyval)
    : result response :=
  match url with
  | VStr u =>
      match list_find (fun kv => fst kv = u) network with
      | Some (_, kv) => Ok (snd kv)
      | None => Raise OSError
      end
  | _ => Raise ValueError
  end.

(** [raise_for_status] raises for the 4xx and 5xx codes. *)
Definition raise_for_status (r : response) : result unit :=
  if Z.leb 400 (status_code r) && Z.ltb (status_code r) 600
  then Raise HTTPError else Ok tt.

(** [feedparser.parse]: a table from document to parse result; any other
    document is reported malformed. *)
Definition feedparser_parse (documents : list (string * parsed_feed)) (body : string)
    : result parsed_feed :=
  match list_find (fun kv => fst kv = body) documents with
  | Some (_, kv) => Ok (snd kv)
  | None => Ok {| bozo := true; entries := [] |}
  end.

Definition platform (network : list (string * response))
    (documents : list (string * parsed_feed)) : Platform :=
  Build_Platform fromisoformat isoformat mktime fromtimestamp
    (requests_get network) raise_for_status (feedparser_parse documents).

End Reference.

(** ** Sample data on the reference platform *)

Module Sample.

Definition at_time (y m d hh mm ss : Z) : struct_time :=
  {| tm_year := y; tm_mon := m; tm_mday := d;
     tm_hour := hh; tm_min := mm; tm_sec := ss;
     tm_wday := 0; tm_yday := 1; tm_isdst := 0 |}.

(** The clock reads 2024-01-02T12:00:00. *)
Definition now : Z := Reference.micros 2024 1 2 12 0 0 0.

Definition recent_entry : entry :=
  {| entry_title := Some "Recent"; entry_link := Some "https://a.example/1";
     published_parsed := Some (Some (at_time 2024 1 2 11 0 0)) |}.

(** Published one hour after [now]. *)
Definition future_entry : entry :=
  {| entry_title := Some "Scheduled"; entry_link := Some "https://a.example/2";
     published_parsed := Some (Some (at_time 2024 1 2 13 0 0)) |}.

Definition old_entry : entry :=
  {| entry_title := Some "Old"; entry_link := Some "https://a.example/3";
     published_parsed := Some (Some (at_time 2023 12 30 12 0 0)) |}.

Definition undated_entry : entry :=
  {| entry_title := Some "Undated"; entry_link := None;
     published_parsed := None |}.

Definition unparsed_entry : entry :=
  {| entry_title := None; entry_link := Some "https://a.example/5";
     published_parsed := Some None |}.

Definition network : list (string * response) :=
  [("https://a.example/rss", {| status_code := 200; content := "<rss>a</rss>" |});
   ("https://b.example/rss", {| status_code := 404; content := "gone" |});
   ("https://c.example/rss", {| status_code := 200; content := "<rss" |})].

Definition documents : list (string * parsed_feed) :=
  [("<rss>a</rss>",
    {| bozo := false;
       entries := [recent_entry; future_entry; old_entry; undated_entry;
                   unparsed_entry] |})].

Definition platform : Platform := Reference.platform network documents.

Definition feed_ref (name url : string) : pyval :=
  VDict [("name", VStr name); ("url", VStr url)].

Definition article (feed title link timestamp : string) : pyval :=
  VDict [("feed", VStr feed); ("title", VStr title);
         ("link", VStr link); ("timestamp", VStr timestamp)].

Definition names : gset hkey := {[ KStr "A"; KStr "B" ]}.

Definition fresh_x : pyval := article "A" "T1" "x" "2024-01-02T12:00:00".
Definition cached_x : pyval := article "A" "T0" "x" "2024-01-02T11:00:00".
Definition cached_y : pyval := article "B" "T2" "y" "2024-01-02T10:00:00".
Definition stale_z : pyval := article "A" "T3" "z" "2023-12-30T10:00:00".
Definition retired_w : pyval := article "C" "T4" "w" "2024-01-02T10:00:00".
Definition unlinked : pyval := article "A" "T5" "No link" "2024-01-02T12:00:00".

(** A record without a link, one without a timestamp, and a stale one
    without a feed. *)
Definition no_link : pyval :=
  VDict [("feed", VStr "A"); ("title", VStr "T6");
         ("timestamp", VStr "2024-01-02T11:00:00")].
Definition no_timestamp : pyval :=
  VDict [("feed", VStr "A"); ("title", VStr "T7"); ("link", VStr "v")].
Definition stale_no_feed : pyval :=
  VDict [("title", VStr "T8"); ("link", VStr "u");
         ("timestamp", VStr "2023-12-30T10:00:00")].

Definition snapshot (articles : list pyval) : pyval :=
  VDict [("timestamp", VStr "2024-01-02T11:30:00"); ("articles", VList articles)].

Definition disk0 : disk := {| cache_file := Missing; writable := true |}.

End Sample.


(** ** The rest of the script: orchestration, [main], selection *)

(** [needle in hay] on two strings *)
Fixpoint str_contains (needle hay : string) : bool :=
  String.prefix needle hay
  || match hay with
     | EmptyString => false
     | String _ hay' => str_contains needle hay'
     end.

(** ['name' in feed] *)
Definition contains_name (feed : pyval) : result bool :=
  match feed with
  | VDict d => Ok (bool_decide (is_Some (dict_lookup d "name")))
  | VStr s => Ok (str_contains "name" s)
  | VList l => Ok (existsb (fun v => eq_str v "name") l)
  | _ => Raise TypeError
  end.

(** One round of [{feed['name'] for feed in feeds if 'name' in feed}]. *)
Definition add_feed_name (names : gset hkey) (feed : pyval) : result (gset hkey) :=
  let* named := contains_name feed in
  if named then
    let* name := getitem feed "name" in
    let* k := hash_key name in
    Ok ({[ k ]} ∪ names)
  else Ok names.

Definition feed_names (feeds : list pyval) : result (gset hkey) :=
  for_each add_feed_name feeds ∅.

(** The clock readings of one run: by [read_cache], by the worker of the
    [i]-th feed, and by the two [write_cache] calls. *)
Record clocks := {
  read_at : Z;
  fetch_at : nat -> Z;
  write_at : Z;
  rewrite_at : Z
}.

(** How [main] ends before the selection starts: with the message about
    the configuration, or with the merged list committed. *)
Inductive outcome :=
  | ConfigError
  | Refreshed (d : disk) (requests : list pyval) (merged_articles : list pyval).

(** The white space [str.strip()] removes from ASCII text: tab to carriage
    return, the four separators and the blank. *)
Definition is_space (c : ascii) : bool :=
  let n := nat_of_ascii c in
  (Nat.leb 9 n && Nat.leb n 13) || (Nat.leb 28 n && Nat.leb n 32).

Fixpoint lstrip (s : string) : string :=
  match s with
  | EmptyString => EmptyString
  | String c s' => if is_space c then lstrip s' else s
  end.

(** [rstrip] on the characters of the string *)
Fixpoint rstrip_chars (cs : list ascii) : list ascii :=
  match cs with
  | [] => []
  | c :: cs' =>
      match rstrip_chars cs' with
      | [] => if is_space c then [] else [c]
      | rest => c :: rest
      end
  end.

Definition py_strip (s : string) : string :=
  string_of_list_ascii (rstrip_chars (list_ascii_of_string (lstrip s))).

Definition newline : string := String (ascii_of_nat 10) EmptyString.

(** One run of the [fzf] process: from the text on its standard input to
    its return code and its standard output. *)
Definition picker : Type := string -> Z * string.

Definition get_fzf_selection (options : list string) (fzf : picker) : option string :=
  match options with
  | [] => None
  | _ :: _ =>
      let '(returncode, stdout) := fzf (String.concat newline options) in
      if Z.eqb returncode 0 then Some (py_strip stdout) else None
  end.

(** What the loop of [main] does for a selection. *)
Inductive action :=
  | OpenBrowser (link : pyval)
  | NoValidLink.

(** [str(v)], as an f-string formats a field; a string is printed as it
    is. *)
Class Display := {
  py_str : pyval -> string;
  py_str_text : forall s, py_str (VStr s) = s
}.

Section Orchestration.
Context `{Platform}.

(** The loop over the futures, from the [i]-th on: the result of each
    worker is appended in submission order, a worker that raised is
    skipped. *)
Fixpoint fetch_feeds_from (clock : nat -> Z) (i : nat) (feeds : list pyval)
    (results : fetched) : fetched :=
  match feeds with
  | [] => results
  | feed :: rest =>
      fetch_feeds_from clock (S i) rest
        match fetch_feed feed (clock i) with
        | Ok r => {| requested := requested results ++ requested r;
                     new_articles := new_articles results ++ new_articles r |}
        | Raise _ => results
        end
  end.

Definition fetch_feeds (feeds : list pyval) (clock : nat -> Z) : fetched :=
  fetch_feeds_from clock 0 feeds {| requested := []; new_articles := [] |}.

(** [main] up to the commit; [Raise] is an exception that leaves [main]. *)
Definition main_refresh (config_file : file_state) (d : disk) (t : clocks)
    : result outcome :=
  match json_load_file config_file with
  | Raise _ => Ok ConfigError
  | Ok config =>
      let* feeds_value := py_get config "feeds" (VList []) in
      let* feeds := py_iter feeds_value in
      let* current_feed_names := feed_names feeds in
      let* cached_articles := read_cache (cache_file d) (read_at t) current_feed_names in
      let fresh := fetch_feeds feeds (fetch_at t) in
      let* merged_articles :=
        merge (new_articles fresh) cached_articles current_feed_names in
      Ok (Refreshed (commit merged_articles (write_at t) (rewrite_at t) d)
            (requested fresh) merged_articles)
  end.

End Orchestration.

Section Selection.
Context `{Display}.

(** [f"{a['feed']} | {a['title']}"] *)
Definition label (a : pyval) : result string :=
  let* feed := getitem a "feed" in
  let* title := getitem a "title" in
  Ok (py_str feed ++ " | " ++ py_str title)%string.

(** [[label(a) for a in merged_articles]] *)
Fixpoint labels (articles : list pyval) : result (list string) :=
  match articles with
  | [] => Ok []
  | a :: rest =>
      let* l := label a in
      let* ls := labels rest in
      Ok (l :: ls)
  end.

(** The [for article in merged_articles] loop with its [break]: what the
    first article with the selected label leads to. *)
Fixpoint act_on (selected : string) (articles : list pyval) : result (option action) :=
  match articles with
  | [] => Ok None
  | article :: rest =>
      let* l := label article in
      if String.eqb l selected then
        let* link := getitem article "link" in
        if truthy link && negb (eq_str link "No link")
        then Ok (Some (OpenBrowser link))
        else Ok (Some NoValidLink)
      else act_on selected rest
  end.

(** The [while True] loop over as many picker runs as [sessions] holds.
    The actions done so far come with [None] when the loop is left or
    the sessions are used up, and with the exception when one escapes. *)
Fixpoint browse (merged_articles : list pyval) (fzf_options : list string)
    (sessions : list picker) (done : list action) : list action * option exn :=
  match sessions with
  | [] => (done, None)
  | fzf :: later =>
      match get_fzf_selection fzf_options fzf with
      | None => (done, None)
      | Some selected =>
          if String.eqb selected "" then (done, None)
          else
            match act_on selected merged_articles with
            | Raise e => (done, Some e)
            | Ok None => browse merged_articles fzf_options later done
            | Ok (Some act) => browse merged_articles fzf_options later (done ++ [act])
            end
      end
  end.

(** [main] from the commit on. *)
Definition main_select (merged_articles : list pyval) (sessions : list picker)
    : list action * option exn :=
  match merged_articles with
  | [] => ([], None)
  | _ :: _ =>
      match labels merged_articles with
      | Raise e => ([], Some e)
      | Ok fzf_options => browse merged_articles fzf_options sessions []
      end
  end.

End Selection.

(** ** Sample data for a whole run *)

Module Scene.

(** Prints a string as it is; the samples format nothing else. *)
Definition display : Display :=
  {| py_str := fun v => match v with VStr s => s | _ => "?" end;
     py_str_text := fun s => eq_refl |}.

(** A picker run that returns the given line, and one that is cancelled. *)
Definition pick (line : string) : picker := fun _ => (0, (line ++ newline)%string).
Definition cancel : picker := fun _ => (130, "").

Definition config : file_state :=
  Document (VDict [("feeds",
    VList [Sample.feed_ref "A" "https://a.example/rss";
           Sample.feed_ref "B" "https://b.example/rss"])]).

Definition unnamed_config : file_state :=
  Document (VDict [("feeds", VList [VDict [("url", VStr "https://a.example/rss")]])]).

Definition clock : clocks :=
  {| read_at := Sample.now; fetch_at := fun _ => Sample.now;
     write_at := Sample.now; rewrite_at := Sample.now |}.

Definition cached_disk : disk :=
  {| cache_file :=
       Document (Sample.snapshot [Sample.cached_x; Sample.cached_y; Sample.retired_w]);
     writable := true |}.

Definition recent : pyval :=
  Sample.article "A" "Recent" "https://a.example/1" "2024-01-02T11:00:00".
Definition scheduled : pyval :=
  Sample.article "A" "Scheduled" "https://a.example/2" "2024-01-02T13:00:00".

(** Two articles with one label, an article with an empty title, and a
    record without a title. *)
Definition twin : pyval :=
  Sample.article "A" "Recent" "https://a.example/9" "2024-01-02T11:30:00".
Definition untitled : pyval :=
  Sample.article "A" "" "https://a.example/7" "2024-01-02T11:00:00".
Definition no_title : pyval :=
  VDict [("feed", VStr "A"); ("link", VStr "t");
         ("timestamp", VStr "2024-01-02T11:00:00")].

End Scene.

(** ** The file system around the cache file

    [os.makedirs] (line 53) and [os.remove] (line 192) stand outside every
    [try]: when one of them fails the exception leaves [main].  A step is
    therefore a file system after it, with the exception that left it, if
    any.  [write_cache] above is the body of the function once the
    directory is there, and [commit] is the commit in which nothing
    raises. *)

Record filesystem := {
  fs_disk : disk;
  (** whether [os.makedirs(CACHE_DIR, exist_ok=True)] succeeds *)
  dir_creatable : bool;
  (** whether [os.remove(CACHE_FILE)] succeeds *)
  removable : bool
}.

Definition with_disk (fs : filesystem) (d : disk) : filesystem :=
  {| fs_disk := d; dir_creatable := dir_creatable fs; removable := removable fs |}.

(** [os.makedirs(CACHE_DIR, exist_ok=True)] *)
Definition os_makedirs (fs : filesystem) : result unit :=
  if dir_creatable fs then Ok tt else Raise OSError.

(** [os.remove(CACHE_FILE)] *)
Definition os_remove (fs : filesystem) : filesystem * option exn :=
  if removable fs then (with_disk fs (remove_cache (fs_disk fs)), None)
  else (fs, Some OSError).

Section FileSystem.
Context `{Platform}.

(** A call of [write_cache], lines 51 to 62. *)
Definition write_cache_call (articles : list pyval) (now : Z) (fs : filesystem)
    : filesystem * option exn :=
  match os_makedirs fs with
  | Raise e => (fs, Some e)
  | Ok _ => (with_disk fs (write_cache articles now (fs_disk fs)), None)
  end.

(** Lines 184 to 193 of [main]. *)
Definition main_commit (merged_articles : list pyval) (now1 now2 : Z)
    (fs : filesystem) : filesystem * option exn :=
  match write_cache_call merged_articles now1 fs with
  | (fs1, Some e) => (fs1, Some e)
  | (fs1, None) =>
      if truthy (VList merged_articles) then write_cache_call merged_articles now2 fs1
      else if path_exists (cache_file (fs_disk fs1)) then os_remove fs1
      else (fs1, None)
  end.

(** The commit as the design describes it: [write] when the merged list is
    non-empty, else [clear], which removes the snapshot if there is one. *)
Definition clear_call (fs : filesystem) : filesystem * option exn :=
  if path_exists (cache_file (fs_disk fs)) then os_remove fs else (fs, None).

Definition main_commit_spec (merged_articles : list pyval) (now : Z)
    (fs : filesystem) : filesystem * option exn :=
  match merged_articles with
  | [] => clear_call fs
  | _ :: _ => write_cache_call merged_articles now fs
  end.

(** [main] up to the commit, with the file system it leaves. *)
Definition main_run (config_file : file_state) (fs : filesystem) (t : clocks)
    : filesystem * result outcome :=
  match json_load_file config_file with
  | Raise _ => (fs, Ok ConfigError)
  | Ok config =>
      match
        (let* feeds_value := py_get config "feeds" (VList []) in
         let* feeds := py_iter feeds_value in
         let* current_feed_names := feed_names feeds in
         let* cached_articles :=
           read_cache (cache_file (fs_disk fs)) (read_at t) current_feed_names in
         let fresh := fetch_feeds feeds (fetch_at t) in
         let* merged_articles :=
           merge (new_articles fresh) cached_articles current_feed_names in
         Ok (requested fresh, merged_articles))
      with
      | Raise e => (fs, Raise e)
      | Ok (requests, merged_articles) =>
          match main_commit merged_articles (write_at t) (rewrite_at t) fs with
          | (fs', Some e) => (fs', Raise e)
          | (fs', None) => (fs', Ok (Refreshed (fs_disk fs') requests merged_articles))
          end
      end
  end.

End FileSystem.

(** ** Sample data for the failing paths *)

Module Trouble.

(** A server that answers 301 with a feed document as its body. *)
Definition moved_network : list (string * response) :=
  [("https://m.example/rss", {| status_code := 301; content := "<rss>a</rss>" |});
   ("https://b.example/rss", {| status_code := 404; content := "gone" |})].

Definition platform : Platform := Reference.platform moved_network Sample.documents.

(** A cache file that can be written but not removed, as in a directory
    without write permission, and one that can be removed. *)
Definition stuck : filesystem :=
  {| fs_disk := {| cache_file := Document (Sample.snapshot [Sample.cached_x]);
                   writable := true |};
     dir_creatable := true;
     removable := false |}.

Definition free : filesystem :=
  {| fs_disk := {| cache_file := Document (Sample.snapshot [Sample.cached_x]);
                   writable := true |};
     dir_creatable := true;
     removable := true |}.

End Trouble.

(** * Properties *)

(** ** The result monad *)

Lemma bind_ok {A B} (m : result A) (k : A -> result B) (b : B) :
  bind m k = Ok b -> exists a, m = Ok a /\ k a = Ok b.
Proof. destruct m as [a|e]; simpl; [eauto | discriminate]. Qed.

Ltac inv_bind H :=
  let a := fresh "x" in
  let Ha := fresh "E" in
  apply bind_ok in H; destruct H as (a & Ha & H).

(** ** Comprehensions and loops *)

Lemma filter_r_ok {A} (cond : A -> result bool) (l r : list A) :
  filter_r cond l = Ok r ->
  r = filter (fun a => cond a = Ok true) l
  /\ Forall (fun a => is_ok (cond a) = true) l.
Proof.
  revert r. induction l as [|a l IH]; intros r Hr; simpl in Hr.
  - injection Hr as <-. split; [reflexivity | constructor].
  - inv_bind Hr. inv_bind Hr. injection Hr as <-.
    destruct (IH _ E0) as [-> Hall]. split.
    + rewrite filter_cons. destruct x; case_decide; congruence.
    + constructor; [by rewrite E | exact Hall].
Qed.

Lemma filter_r_total {A} (cond : A -> result bool) (l : list A) :
  Forall (fun a => is_ok (cond a) = true) l ->
  filter_r cond l = Ok (filter (fun a => cond a = Ok true) l).
Proof.
  induction 1 as [|a l Ha _ IH]; simpl; [reflexivity|].
  rewrite IH, filter_cons. case_decide as Hc.
  - rewrite Hc. reflexivity.
  - destruct (cond a) as [b|e]; [|discriminate].
    destruct b; [congruence | reflexivity].
Qed.

Lemma filter_r_raise {A} (cond : A -> result bool) (l : list A) (a : A) :
  a ∈ l -> is_ok (cond a) = false -> is_ok (filter_r cond l) = false.
Proof.
  induction 1 as [a l|a b l _ IH]; intros Ha; simpl.
  - destruct (cond a); [discriminate | reflexivity].
  - destruct (cond b); simpl; [|reflexivity].
    specialize (IH Ha). destruct (filter_r cond l); [discriminate | reflexivity].
Qed.

(** ** The cache store *)

Section CacheStore.
Context `{Platform}.

Lemma cache_age_ok (now : Z) (a : pyval) (age : Z) :
  cache_age now a = Ok age ->
  exists s t, getitem a "timestamp" = Ok (VStr s)
    /\ fromisoformat s = Ok (Naive t) /\ age = now - t.
Proof.
  unfold cache_age. intros Hage. inv_bind Hage. inv_bind Hage.
  destruct x as [| | |s| |]; simpl in E0; try discriminate.
  destruct x0 as [t|t]; simpl in Hage; [|discriminate].
  injection Hage as <-. eauto.
Qed.

Lemma cache_valid_true (now : Z) (names : gset hkey) (a : pyval) :
  cache_valid now names a = Ok true -> within_window now a /\ feed_in names a.
Proof.
  unfold cache_valid. intros Hv. inv_bind Hv.
  destruct (Z.leb_spec x (timedelta_hours MAX_AGE_HOURS)) as [Hle|Hgt];
    [|discriminate].
  apply cache_age_ok in E as (s & t & Hts & Hiso & ->).
  inv_bind Hv. unfold py_in in Hv. inv_bind Hv. injection Hv as Hin.
  apply bool_decide_eq_true in Hin. split.
  - exists s, t. auto.
  - exists x, x0. auto.
Qed.

Lemma within_window_age (now : Z) (a : pyval) :
  within_window now a ->
  exists age, cache_age now a = Ok age /\ age <= timedelta_hours MAX_AGE_HOURS.
Proof.
  intros (s & t & Hts & Hiso & Hle). exists (now - t). split; [|exact Hle].
  unfold cache_age. rewrite Hts. simpl. rewrite Hiso. reflexivity.
Qed.

Lemma cache_valid_holds (now : Z) (names : gset hkey) (a : pyval) :
  within_window now a -> feed_in names a -> cache_valid now names a = Ok true.
Proof.
  intros Hw (feed & k & Hfeed & Hk & Hin).
  apply within_window_age in Hw as (age & Hage & Hle).
  unfold cache_valid. rewrite Hage. simpl.
  apply Z.leb_le in Hle. rewrite Hle, Hfeed. simpl.
  unfold py_in. rewrite Hk. simpl. by rewrite bool_decide_eq_true_2.
Qed.

Lemma poisons_raises (now : Z) (names : gset hkey) (a : pyval) :
  poisons now a -> is_ok (cache_valid now names a) = false.
Proof.
  intros [Hts | v Hts Hv | s e Hts Hiso | s t Hts Hiso | Hw Hfeed | feed e Hw Hfeed Hk];
    unfold cache_valid.
  - unfold cache_age. rewrite Hts. reflexivity.
  - unfold cache_age. rewrite Hts. simpl.
    destruct v; try reflexivity. by destruct (Hv s).
  - unfold cache_age. rewrite Hts. simpl. rewrite Hiso. reflexivity.
  - unfold cache_age. rewrite Hts. simpl. rewrite Hiso. reflexivity.
  - apply within_window_age in Hw as (age & -> & Hle). simpl.
    apply Z.leb_le in Hle. rewrite Hle, Hfeed. reflexivity.
  - apply within_window_age in Hw as (age & -> & Hle). simpl.
    apply Z.leb_le in Hle. rewrite Hle, Hfeed. simpl.
    unfold py_in. rewrite Hk. reflexivity.
Qed.

Lemma read_cache_returns (f : file_state) (now : Z) (names : gset hkey) :
  exists articles, read_cache f now names = Ok articles.
Proof.
  unfold read_cache. destruct (negb (path_exists f)); [eauto|].
  unfold try_except. match goal with |- context [match ?b with _ => _ end] =>
    destruct b end; eauto.
Qed.

Lemma read_cache_items (f : file_state) (now : Z) (names : gset hkey)
    (articles : list pyval) (a : pyval) :
  read_cache f now names = Ok articles -> a ∈ articles ->
  cache_valid now names a = Ok true.
Proof.
  unfold read_cache. destruct (negb (path_exists f)).
  { intros [= <-] Hin. by apply elem_of_nil in Hin. }
  unfold try_except.
  match goal with |- context [match ?b with _ => _ end] =>
    destruct b as [r|e] eqn:Hbody end.
  - intros [= <-] Hin. inv_bind Hbody. inv_bind Hbody. inv_bind Hbody.
    apply filter_r_ok in Hbody as [-> _].
    apply list_elem_of_filter in Hin as [Hc _]. exact Hc.
  - intros [= <-] Hin. by apply elem_of_nil in Hin.
Qed.

Lemma read_cache_document (d : list (string * pyval)) (items : list pyval)
    (now : Z) (names : gset hkey) :
  dict_lookup d "articles" = Some (VList items) ->
  read_cache (Document (VDict d)) now names =
    try_except (filter_r (cache_valid now names) items) (fun _ => Ok []).
Proof. intros Hd. unfold read_cache. simpl. rewrite Hd. reflexivity. Qed.

(** C6: whatever the cache file holds and whatever the set of current feed
    names, [read_cache] returns a list, and every article of that list has
    a timestamp at most [MAX_AGE_HOURS] older than now and a feed name that
    belongs to the supplied set; so an article of a feed that left the
    configuration is never returned, however recent. *)
Theorem read_cache_fresh_and_configured (f : file_state) (now : Z)
    (current_feed_names : gset hkey) :
  exists articles,
    read_cache f now current_feed_names = Ok articles
    /\ forall a, a ∈ articles ->
         within_window now a /\ feed_in current_feed_names a.
Proof.
  destruct (read_cache_returns f now current_feed_names) as [articles Hr].
  exists articles. split; [exact Hr|].
  intros a Hin. apply cache_valid_true.
  exact (read_cache_items _ _ _ _ _ Hr Hin).
Qed.

(** C7: when the cache file is absent, cannot be opened, or does not hold
    JSON, [read_cache] returns the empty list and raises nothing. *)
Theorem read_cache_cold_start (now : Z) (current_feed_names : gset hkey) :
  read_cache Missing now current_feed_names = Ok []
  /\ read_cache Unreadable now current_feed_names = Ok []
  /\ read_cache Malformed now current_feed_names = Ok [].
Proof. repeat split. Qed.

(** C10, amended: when the snapshot parses as JSON and its article list
    holds a record whose timestamp is missing or does not parse to a naive
    datetime, or a record within the freshness window whose feed key is
    missing, [read_cache] returns the empty list, whatever the other
    records are. *)
Theorem read_cache_all_or_nothing (d : list (string * pyval))
    (items : list pyval) (bad : pyval) (now : Z) (current_feed_names : gset hkey) :
  dict_lookup d "articles" = Some (VList items) ->
  bad ∈ items ->
  poisons now bad ->
  read_cache (Document (VDict d)) now current_feed_names = Ok [].
Proof.
  intros Hd Hin Hbad. rewrite (read_cache_document _ _ _ _ Hd).
  pose proof (filter_r_raise (cache_valid now current_feed_names) items bad Hin
                (poisons_raises _ _ _ Hbad)) as Hraise.
  destruct (filter_r _ items); [discriminate | reflexivity].
Qed.

Lemma storable_judged (now : Z) (names : gset hkey) (a : pyval) :
  storable a = true -> is_ok (cache_valid now names a) = true.
Proof.
  unfold storable, timestamp_parses. intros [Hts Hfeed]%andb_true_iff.
  unfold cache_valid, cache_age.
  destruct (getitem a "timestamp") as [[| | |s| |]|]; try discriminate. simpl.
  destruct (fromisoformat s) as [[t|t]|]; try discriminate. simpl.
  destruct (Z.leb _ _); [|reflexivity].
  destruct (getitem a "feed") as [feed|]; [simpl in *|discriminate].
  unfold py_in. by destruct (hash_key feed).
Qed.

Lemma valid_storable (now : Z) (names : gset hkey) (a : pyval) :
  cache_valid now names a = Ok true -> storable a = true.
Proof.
  intros [(s & t & Hts & Hiso & _) (feed & k & Hfeed & Hk & _)]%cache_valid_true.
  unfold storable, timestamp_parses. by rewrite Hts, Hiso, Hfeed; simpl; rewrite Hk.
Qed.

(** What [read_cache] returns can be written and read again. *)
Lemma read_cache_storable (f : file_state) (now : Z) (names : gset hkey)
    (articles : list pyval) :
  read_cache f now names = Ok articles ->
  Forall (fun a => storable a = true) articles.
Proof.
  intros Hr. apply Forall_forall. intros a Hin.
  eapply valid_storable, read_cache_items; eauto.
Qed.

(** C9: after a successful [write_cache] of articles whose timestamps read
    back and whose feeds are hashable, a [read_cache] returns exactly the
    written articles that are still within the freshness window and whose
    feed is in the supplied set, in their written order and unchanged, so
    with the same feed, title, link and timestamp. *)
Theorem write_then_read (articles : list pyval) (written now : Z) (d : disk)
    (current_feed_names : gset hkey) :
  writable d = true ->
  Forall (fun a => storable a = true) articles ->
  exists back,
    read_cache (cache_file (write_cache articles written d)) now current_feed_names
      = Ok back
    /\ back = filter (fun a => cache_valid now current_feed_names a = Ok true) articles
    /\ (forall a, a ∈ articles ->
          within_window now a -> feed_in current_feed_names a -> a ∈ back)
    /\ (forall a, a ∈ back ->
          a ∈ articles /\ within_window now a /\ feed_in current_feed_names a).
Proof.
  intros Hw Hall.
  unfold write_cache, open_for_writing. rewrite Hw. simpl cache_file.
  rewrite (read_cache_document _ articles); [|reflexivity].
  rewrite filter_r_total.
  - simpl. eexists. split; [reflexivity|]. split; [reflexivity|]. split.
    + intros a Hin Hwin Hfeed. apply list_elem_of_filter. split; [|exact Hin].
      by apply cache_valid_holds.
    + intros a [Hv Hin]%list_elem_of_filter. split; [exact Hin|].
      by apply cache_valid_true.
  - eapply Forall_impl; [exact Hall|]. intros a Ha. by apply storable_judged.
Qed.

End CacheStore.

(** ** The merge step *)

Section Merge.

Implicit Types (seen : gset hkey) (merged : list pyval) (ks : list hkey).

Lemma eq_str_placeholder (link : pyval) (k : hkey) :
  hash_key link = Ok k -> eq_str link "No link" = false -> k <> placeholder.
Proof.
  destruct link; simpl; intros [= <-] Hne; try discriminate.
  intros [= ->]. discriminate.
Qed.

Lemma add_new_admits : admits add_new.
Proof.
  intros seen merged a st' Hst. unfold add_new in Hst.
  inv_bind Hst. inv_bind Hst.
  destruct (bool_decide (x0 ∈ seen)) eqn:Hseen; simpl in Hst.
  { injection Hst as <-. by left. }
  destruct (eq_str x "No link") eqn:Hph; simpl in Hst; injection Hst as <-.
  { by left. }
  right. exists x0. apply bool_decide_eq_false in Hseen.
  split; [|split; [exact Hseen | split; [by eapply eq_str_placeholder | reflexivity]]].
  unfold link_key. by rewrite E.
Qed.

Lemma add_cached_admits (names : gset hkey) : admits (add_cached names).
Proof.
  intros seen merged a st' Hst. unfold add_cached in Hst.
  inv_bind Hst. inv_bind Hst.
  destruct (bool_decide (x0 ∈ seen)) eqn:Hseen; simpl in Hst.
  { injection Hst as <-. by left. }
  destruct (eq_str x "No link") eqn:Hph; simpl in Hst.
  { injection Hst as <-. by left. }
  inv_bind Hst. inv_bind Hst. destruct x2; injection Hst as <-; [|by left].
  right. exists x0. apply bool_decide_eq_false in Hseen.
  split; [|split; [exact Hseen | split; [by eapply eq_str_placeholder | reflexivity]]].
  unfold link_key. by rewrite E.
Qed.

Lemma merge_inv_snoc ks seen merged (a : pyval) (k : hkey) :
  merge_inv ks seen merged ->
  link_key a = Ok k -> k ∉ seen -> k <> placeholder ->
  merge_inv (ks ++ [k]) ({[ k ]} ∪ seen) (merged ++ [a]).
Proof.
  intros (Hkeys & Hnd & Hseen & Hph) Ha Hk Hne. repeat split.
  - apply Forall2_app; [exact Hkeys | by constructor].
  - apply NoDup_app. split; [exact Hnd|]. split; [|apply NoDup_singleton].
    intros k' Hin ->%list_elem_of_singleton. by apply Hk, Hseen.
  - rewrite elem_of_union, elem_of_singleton, elem_of_app, list_elem_of_singleton.
    rewrite Hseen. tauto.
  - rewrite elem_of_union, elem_of_singleton, elem_of_app, list_elem_of_singleton.
    rewrite Hseen. tauto.
  - rewrite elem_of_app, list_elem_of_singleton. intros [?|?]; [by apply Hph|].
    by apply Hne.
Qed.

(** A loop whose body [admits] extends the merged list by articles drawn
    from the list it walks and keeps the invariant. *)
Lemma for_each_admits body (l : list pyval) seen merged seen' merged' ks :
  admits body ->
  for_each body l (seen, merged) = Ok (seen', merged') ->
  merge_inv ks seen merged ->
  exists ks' added,
    merged' = merged ++ added
    /\ merge_inv (ks ++ ks') seen' merged'
    /\ (forall x, x ∈ added -> x ∈ l).
Proof.
  intros Hbody. revert seen merged ks.
  induction l as [|a l IH]; intros seen merged ks Hrun Hinv; simpl in Hrun.
  - injection Hrun as <- <-. exists [], []. rewrite !app_nil_r.
    split; [reflexivity | split; [exact Hinv|]]. intros x Hx. by apply elem_of_nil in Hx.
  - inv_bind Hrun. destruct (Hbody _ _ _ _ E) as [-> | (k & Ha & Hk & Hne & ->)].
    + destruct (IH _ _ _ Hrun Hinv) as (ks' & added & -> & Hinv' & Hsub).
      exists ks', added. split; [reflexivity | split; [exact Hinv'|]].
      intros x Hx. right. by apply Hsub.
    + pose proof (merge_inv_snoc _ _ _ _ _ Hinv Ha Hk Hne) as Hinv1.
      destruct (IH _ _ _ Hrun Hinv1) as (ks' & added & -> & Hinv' & Hsub).
      exists (k :: ks'), (a :: added).
      rewrite <- !app_assoc in *. simpl in *.
      split; [reflexivity | split; [exact Hinv'|]].
      intros x [->|Hx]%elem_of_cons; [left | right; by apply Hsub].
Qed.

Lemma merge_inv_empty : merge_inv [] ∅ [].
Proof.
  repeat split; try constructor.
  - intros Hk. by apply elem_of_empty in Hk.
  - intros Hk. by apply elem_of_nil in Hk.
  - intros Hk. by apply elem_of_nil in Hk.
Qed.

(** The invariant holds of the list [merge] returns, which splits into
    fresh articles followed by cached ones. *)
Lemma merge_result (new cached : list pyval) (names : gset hkey) (merged : list pyval) :
  merge new cached names = Ok merged ->
  exists seen1 merged1 seen2 ks added,
    for_each add_new new (∅, []) = Ok (seen1, merged1)
    /\ merged = merged1 ++ added
    /\ merge_inv ks seen2 merged
    /\ (forall x, x ∈ merged1 -> x ∈ new)
    /\ (forall x, x ∈ added -> x ∈ cached).
Proof.
  unfold merge. intros Hm. inv_bind Hm. inv_bind Hm. injection Hm as <-.
  destruct x as [seen1 merged1], x0 as [seen2 merged2]. simpl.
  destruct (for_each_admits _ _ _ _ _ _ _ add_new_admits E merge_inv_empty)
    as (ks1 & added1 & Hm1 & Hinv1 & Hsub1).
  destruct (for_each_admits _ _ _ _ _ _ _ (add_cached_admits names) E0 Hinv1)
    as (ks2 & added2 & Hm2 & Hinv2 & Hsub2).
  simpl in Hm1. subst merged1.
  exists seen1, added1, seen2, (([] ++ ks1) ++ ks2), added2.
  repeat split; try done; apply Hinv2.
Qed.

Lemma merge_inv_unique ks seen merged (i j : nat) (a b : pyval) :
  merge_inv ks seen merged ->
  merged !! i = Some a -> merged !! j = Some b ->
  link_key a = link_key b -> i = j.
Proof.
  intros (Hkeys & Hnd & _) Hi Hj Hab.
  destruct (Forall2_lookup_l _ _ _ _ _ Hkeys Hi) as (ka & Hka & Ha).
  destruct (Forall2_lookup_l _ _ _ _ _ Hkeys Hj) as (kb & Hkb & Hb).
  rewrite Ha, Hb in Hab. injection Hab as ->.
  by eapply NoDup_lookup.
Qed.

Lemma merge_inv_key ks seen merged (a : pyval) :
  merge_inv ks seen merged -> a ∈ merged ->
  exists k, link_key a = Ok k /\ k <> placeholder.
Proof.
  intros (Hkeys & _ & _ & Hph) [i Hi]%list_elem_of_lookup.
  destruct (Forall2_lookup_l _ _ _ _ _ Hkeys Hi) as (k & Hk & Ha).
  exists k. split; [exact Ha|]. intros ->. apply Hph.
  apply list_elem_of_lookup. eauto.
Qed.

Lemma for_each_extends body (l : list pyval) seen merged seen' merged' :
  admits body ->
  for_each body l (seen, merged) = Ok (seen', merged') ->
  exists added, merged' = merged ++ added.
Proof.
  intros Hbody. revert seen merged.
  induction l as [|a l IH]; intros seen merged Hrun; simpl in Hrun.
  - injection Hrun as <- <-. exists []. by rewrite app_nil_r.
  - inv_bind Hrun. destruct (Hbody _ _ _ _ E) as [-> | (k & _ & _ & _ & ->)].
    + by apply IH in Hrun.
    + apply IH in Hrun as [added ->]. exists (a :: added).
      by rewrite <- app_assoc.
Qed.

Lemma for_each_total {S} (body : S -> pyval -> result S) (l : list pyval) (s : S) :
  (forall s' a, a ∈ l -> is_ok (body s' a) = true) ->
  is_ok (for_each body l s) = true.
Proof.
  revert s. induction l as [|a l IH]; intros s Hok; simpl; [reflexivity|].
  pose proof (Hok s a (list_elem_of_here _ _)) as Ha.
  destruct (body s a) as [s1|]; [simpl | discriminate].
  apply IH. intros s' b Hb. apply Hok. by right.
Qed.

Lemma first_with_key_cons (k : hkey) (a : pyval) (l : list pyval) :
  first_with_key k (a :: l) =
    if decide (link_key a = Ok k) then Some a else first_with_key k l.
Proof.
  unfold first_with_key. simpl. case_decide; [reflexivity|].
  by destruct (list_find _ l) as [[]|].
Qed.

Lemma first_with_key_elem (k : hkey) (l : list pyval) (a : pyval) :
  a ∈ l -> link_key a = Ok k ->
  exists f, first_with_key k l = Some f /\ f ∈ l /\ link_key f = Ok k.
Proof.
  intros Hin Ha. unfold first_with_key.
  destruct (list_find_elem_of (fun x => link_key x = Ok k) l a Hin Ha) as [[i f] Hf].
  rewrite Hf. exists f. apply list_find_Some in Hf as (Hi & Hk & _).
  split; [reflexivity | split; [|exact Hk]].
  apply list_elem_of_lookup. eauto.
Qed.

(** The first loop admits the first article of every key that is neither
    seen yet nor the placeholder. *)
Lemma add_new_keeps_first (l : list pyval) seen merged seen' merged' (k : hkey) (f : pyval) :
  for_each add_new l (seen, merged) = Ok (seen', merged') ->
  k ∉ seen -> k <> placeholder ->
  first_with_key k l = Some f -> f ∈ merged'.
Proof.
  revert seen merged. induction l as [|a l IH]; intros seen merged Hrun Hk Hne Hf.
  { discriminate. }
  rewrite first_with_key_cons in Hf. simpl in Hrun. inv_bind Hrun.
  destruct (add_new_admits _ _ _ _ E) as [-> | (k' & Ha & Hk' & _ & ->)].
  - case_decide as Hak; [|by eapply IH].
    exfalso. unfold add_new in E. unfold link_key in Hak.
    destruct (getitem a "link") as [link|]; [simpl in *|discriminate].
    rewrite Hak in E. simpl in E.
    rewrite bool_decide_eq_false_2 in E by exact Hk. simpl in E.
    destruct (eq_str link "No link") eqn:Hph; simpl in E.
    + destruct link; simpl in Hph; try discriminate.
      apply String.eqb_eq in Hph as ->. simpl in Hak. injection Hak as <-.
      by apply Hne.
    + injection E as Hseen Hmerged. apply (f_equal length) in Hmerged.
      rewrite length_app in Hmerged. simpl in Hmerged. lia.
  - case_decide as Hak.
    + injection Hf as <-.
      destruct (for_each_extends _ _ _ _ _ _ add_new_admits Hrun) as [added ->].
      rewrite !elem_of_app, list_elem_of_singleton. auto.
    + eapply IH; [exact Hrun | | exact Hne | exact Hf].
      rewrite elem_of_union, elem_of_singleton. intros [->|?]; [|by apply Hk].
      by apply Hak.
Qed.

Lemma is_article_fields (a : pyval) :
  is_article a = true ->
  exists feed link, getitem a "feed" = Ok (VStr feed) /\ getitem a "link" = Ok (VStr link).
Proof.
  unfold is_article, has_str. intros Ha.
  repeat (apply andb_true_iff in Ha as [Ha ?]).
  destruct (getitem a "feed") as [[| | |feed| |]|]; try discriminate.
  destruct (getitem a "link") as [[| | |link| |]|]; try discriminate.
  eauto.
Qed.

(** On canonical articles neither loop raises. *)
Lemma merge_returns (new cached : list pyval) (names : gset hkey) :
  Forall (fun a => is_article a = true) new ->
  Forall (fun a => is_article a = true) cached ->
  is_ok (merge new cached names) = true.
Proof.
  intros Hnew Hcached. unfold merge.
  assert (is_ok (for_each add_new new (∅, [])) = true) as H1.
  { apply for_each_total. intros [seen merged] a Ha.
    rewrite Forall_forall in Hnew.
    destruct (is_article_fields a (Hnew a Ha)) as (feed & link & _ & Hl).
    unfold add_new. rewrite Hl. simpl.
    by destruct (negb _ && negb _). }
  destruct (for_each add_new new (∅, [])) as [st1|]; [simpl | discriminate].
  assert (is_ok (for_each (add_cached names) cached st1) = true) as H2.
  { apply for_each_total. intros [seen merged] a Ha.
    rewrite Forall_forall in Hcached.
    destruct (is_article_fields a (Hcached a Ha)) as (feed & link & Hf & Hl).
    unfold add_cached. rewrite Hl. simpl.
    destruct (negb _ && negb _); [|reflexivity].
    rewrite Hf. simpl. by destruct (bool_decide _). }
  destruct (for_each (add_cached names) cached st1); [reflexivity | discriminate].
Qed.

Lemma link_key_of_link (a b : pyval) :
  getitem a "link" = getitem b "link" -> link_key a = link_key b.
Proof. unfold link_key. by intros ->. Qed.

(** C1: the merge of canonical articles returns a list, and in any list
    the merge returns no two positions hold articles with the same link:
    neither the same link value nor two values with the same hash key.
    This covers every link other than the placeholder and the placeholder
    too. *)
Theorem merge_links_unique (new cached : list pyval) (current_feed_names : gset hkey) :
  (Forall (fun a => is_article a = true) new ->
   Forall (fun a => is_article a = true) cached ->
   is_ok (merge new cached current_feed_names) = true)
  /\ forall merged, merge new cached current_feed_names = Ok merged ->
       forall (i j : nat) (a b : pyval),
         merged !! i = Some a -> merged !! j = Some b ->
         (getitem a "link" = getitem b "link" \/ link_key a = link_key b) ->
         i = j.
Proof.
  split; [apply merge_returns|].
  intros merged Hm i j a b Hi Hj Hab.
  destruct (merge_result _ _ _ _ Hm) as (_ & _ & seen & ks & _ & _ & _ & Hinv & _).
  eapply merge_inv_unique; [exact Hinv | exact Hi | exact Hj |].
  destruct Hab as [Hab|Hab]; [by apply link_key_of_link | exact Hab].
Qed.

(** C2: when a link other than the placeholder occurs in a fresh article
    and in a cached one, the merged list holds exactly one article under
    that link and it is the first fresh article with that link, with all
    its fields; no cached article is retained under it. *)
Theorem merge_fresh_wins (new cached : list pyval) (current_feed_names : gset hkey)
    (merged : list pyval) (a c : pyval) (k : hkey) :
  merge new cached current_feed_names = Ok merged ->
  a ∈ new -> link_key a = Ok k ->
  c ∈ cached -> link_key c = Ok k ->
  k <> placeholder ->
  exists f,
    first_with_key k new = Some f
    /\ f ∈ new
    /\ f ∈ merged
    /\ forall m, m ∈ merged -> link_key m = Ok k -> m = f.
Proof.
  intros Hm Ha Hka _ _ Hne.
  destruct (merge_result _ _ _ _ Hm)
    as (seen1 & merged1 & seen & ks & added & Hrun & -> & Hinv & _ & _).
  destruct (first_with_key_elem k new a Ha Hka) as (f & Hf & Hfnew & Hkf).
  exists f. split; [exact Hf | split; [exact Hfnew|]].
  assert (f ∈ merged1 ++ added) as Hfm.
  { apply elem_of_app. left.
    eapply add_new_keeps_first; [exact Hrun | | exact Hne | exact Hf].
    intros Hk. by apply elem_of_empty in Hk. }
  split; [exact Hfm|].
  intros m [j Hj]%list_elem_of_lookup Hkm.
  apply list_elem_of_lookup in Hfm as [i Hi].
  assert (i = j) as ->.
  { eapply merge_inv_unique; [exact Hinv | exact Hi | exact Hj |]. congruence. }
  congruence.
Qed.

(** C3, amended: no article whose link is the placeholder is in the merged
    list, whether it came from the fresh list or from the cache. *)
Theorem merge_drops_placeholder (new cached : list pyval) (current_feed_names : gset hkey)
    (merged : list pyval) (a : pyval) :
  merge new cached current_feed_names = Ok merged ->
  getitem a "link" = Ok (VStr "No link") ->
  a ∉ merged.
Proof.
  intros Hm Hlink Hin.
  destruct (merge_result _ _ _ _ Hm) as (_ & _ & seen & ks & _ & _ & _ & Hinv & _).
  destruct (merge_inv_key _ _ _ _ Hinv Hin) as (k & Hk & Hne).
  unfold link_key in Hk. rewrite Hlink in Hk. simpl in Hk.
  injection Hk as <-. by apply Hne.
Qed.

End Merge.

(** ** The feed fetcher and its normaliser *)

Section Fetcher.
Context `{Platform}.

Lemma normalize_entry_kept (name : pyval) (now : Z) (acc : list pyval) (e : entry) :
  normalize_entry name now acc e = acc ++ from_option (fun a => [a]) [] (kept name now e).
Proof.
  unfold normalize_entry, kept.
  destruct (published_parsed e) as [pp|] eqn:Hpp.
  - destruct (published_time e) as [t|]; simpl; [|by rewrite app_nil_r].
    destruct (Z.ltb_spec (timedelta_hours MAX_AGE_HOURS) (now - t)).
    + rewrite bool_decide_eq_false_2 by lia. simpl. by rewrite app_nil_r.
    + rewrite bool_decide_eq_true_2 by lia. reflexivity.
  - unfold published_time. rewrite Hpp. simpl. by rewrite app_nil_r.
Qed.

Lemma normalize_loop (name : pyval) (now : Z) (es : list entry) (acc : list pyval) :
  fold_left (normalize_entry name now) es acc = acc ++ omap (kept name now) es.
Proof.
  revert acc. induction es as [|e es IH]; intros acc; simpl.
  - by rewrite app_nil_r.
  - rewrite IH, normalize_entry_kept, <- app_assoc. f_equal.
    by destruct (kept name now e).
Qed.

Lemma normalize_omap (name : pyval) (now : Z) (es : list entry) :
  normalize name now es = omap (kept name now) es.
Proof. unfold normalize. by rewrite normalize_loop. Qed.

(** C4, amended: the normaliser keeps, in order, exactly the entries whose
    publish time converts to a datetime that is at most [MAX_AGE_HOURS]
    older than now, each as an article stamped with the feed name; an
    entry without a publish time, or with one that does not convert, is
    skipped.  Nothing bounds the publish time from above. *)
Theorem normalize_keeps_recent (name : pyval) (now : Z) (es : list entry) :
  normalize name now es =
    omap (fun e =>
            match published_time e with
            | Ok t =>
                if bool_decide (now - t <= timedelta_hours MAX_AGE_HOURS)
                then Some (make_article name e t) else None
            | Raise _ => None
            end) es.
Proof. apply normalize_omap. Qed.

Ltac empty_result :=
  eexists; split; [reflexivity|]; split;
  [ first [ intros [?|?]; congruence | intros _; split; reflexivity ]
  | intros; repeat split; intros; reflexivity ].

(** On a feed given as a dict [fetch_feed] always returns; without a name
    or a url it calls [requests.get] not at all; and it returns no article
    when the request raises, when [raise_for_status] raises, when the
    parser raises, and when the parser flags the document as malformed. *)
Lemma fetch_feed_failures (d : list (string * pyval)) (now : Z) :
  exists r,
    fetch_feed (VDict d) now = Ok r
    /\ (dict_lookup d "name" = None \/ dict_lookup d "url" = None ->
        requested r = [] /\ new_articles r = [])
    /\ (forall url, dict_lookup d "url" = Some url ->
        (is_ok (requests_get url) = false -> new_articles r = [])
        /\ (forall resp, requests_get url = Ok resp ->
              (is_ok (raise_for_status resp) = false -> new_articles r = [])
              /\ (is_ok (feedparser_parse (content resp)) = false ->
                  new_articles r = [])
              /\ (forall parsed, feedparser_parse (content resp) = Ok parsed ->
                    bozo parsed = true -> new_articles r = []))).
Proof.
  unfold fetch_feed. simpl.
  destruct (dict_lookup d "name") as [name|] eqn:Hname; simpl;
    destruct (dict_lookup d "url") as [url|] eqn:Hurl; simpl;
    rewrite ?orb_true_r; try by empty_result.
  destruct (negb (truthy name) || negb (truthy url)); [by empty_result|].
  destruct (requests_get url) as [resp|e] eqn:Hget; simpl; [|by empty_result].
  destruct (raise_for_status resp) as [[]|e] eqn:Hstatus; simpl;
    [|by empty_result].
  destruct (feedparser_parse (content resp)) as [parsed|e] eqn:Hparse;
    [|by empty_result].
  destruct (bozo parsed) eqn:Hbozo; [by empty_result|].
  eexists. split; [reflexivity|]. split; [intros [?|?]; congruence|].
  intros ? [= <-]. rewrite Hget. split; [done|].
  intros ? [= <-]. rewrite Hstatus, Hparse. repeat split; try done.
  intros ? [= <-]. congruence.
Qed.

(** C8, amended: on a feed given as a dict [fetch_feed] always returns and
    raises nothing; without a name or a url it returns no article and
    calls [requests.get] not at all; and it returns no article when the
    request raises, when the response carries an error status, 4xx or 5xx,
    which are the ones [raise_for_status] rejects, when the parser raises,
    and when the parser flags the document as malformed. *)
Theorem fetch_feed_error_status (d : list (string * pyval)) (now : Z) :
  (forall resp, 400 <= status_code resp < 600 ->
     is_ok (raise_for_status resp) = false) ->
  exists r,
    fetch_feed (VDict d) now = Ok r
    /\ (dict_lookup d "name" = None \/ dict_lookup d "url" = None ->
        requested r = [] /\ new_articles r = [])
    /\ (forall url, dict_lookup d "url" = Some url ->
        (is_ok (requests_get url) = false -> new_articles r = [])
        /\ (forall resp, requests_get url = Ok resp ->
              (400 <= status_code resp < 600 -> new_articles r = [])
              /\ (is_ok (feedparser_parse (content resp)) = false ->
                  new_articles r = [])
              /\ (forall parsed, feedparser_parse (content resp) = Ok parsed ->
                    bozo parsed = true -> new_articles r = []))).
Proof.
  intros Hrule.
  destruct (fetch_feed_failures d now) as (r & Hr & Hmissing & Hurl).
  exists r. split; [exact Hr|]. split; [exact Hmissing|].
  intros url Hu. destruct (Hurl url Hu) as [Hget Hresp]. split; [exact Hget|].
  intros resp Hg. destruct (Hresp resp Hg) as (Hstatus & Hparse & Hbozo).
  split; [|split; [exact Hparse | exact Hbozo]].
  intros Hcode. apply Hstatus, Hrule, Hcode.
Qed.

End Fetcher.

(** ** The commit *)

Section Commit.
Context `{Platform}.

Lemma main_commit_smooth (merged_articles : list pyval) (now1 now2 : Z)
    (fs : filesystem) :
  dir_creatable fs = true -> removable fs = true ->
  main_commit merged_articles now1 now2 fs
    = (with_disk fs (commit merged_articles now1 now2 (fs_disk fs)), None).
Proof.
  destruct fs as [[f w] dc rm]. simpl. intros -> ->.
  unfold main_commit, write_cache_call, os_makedirs, os_remove, commit. simpl.
  destruct merged_articles as [|a l]; simpl; [|reflexivity].
  unfold write_cache, open_for_writing. simpl.
  destruct w; simpl; [reflexivity|]. by destruct f.
Qed.

(** C5, amended: when the cache directory can be made and the cache file
    can be removed, the two writes and the removal that [main] performs
    leave the file system as the single commit of the design does, and
    raise nothing: there is no cache file when the merged list is empty;
    otherwise the file holds the snapshot of the merged list stamped by the
    last write when it can be opened for writing, and is the previous file
    when it cannot. *)
Theorem main_commit_refines_spec (merged_articles : list pyval) (now1 now2 : Z)
    (fs : filesystem) :
  dir_creatable fs = true ->
  removable fs = true ->
  main_commit merged_articles now1 now2 fs = main_commit_spec merged_articles now2 fs
  /\ (main_commit merged_articles now1 now2 fs).2 = None
  /\ cache_file (fs_disk (main_commit merged_articles now1 now2 fs).1) =
       match merged_articles with
       | [] => Missing
       | _ :: _ =>
           if writable (fs_disk fs)
           then Document (VDict [("timestamp", VStr (isoformat now2));
                                 ("articles", VList merged_articles)])
           else cache_file (fs_disk fs)
       end.
Proof.
  intros Hdir Hrm. rewrite (main_commit_smooth _ _ _ _ Hdir Hrm).
  destruct fs as [[f w] dc rm]. simpl in Hdir, Hrm. subst dc rm.
  unfold main_commit_spec, clear_call, write_cache_call, os_makedirs, os_remove,
    commit, write_cache, open_for_writing, with_disk. simpl.
  destruct merged_articles as [|a l]; destruct w; simpl; try done;
    by destruct f.
Qed.

End Commit.

(** ** From fetch and cache to the commit *)

Section Pipeline.
Context `{Platform}.

(** [datetime.fromisoformat] inverts [isoformat]. *)
Hypothesis isoformat_reads_back : forall t, fromisoformat (isoformat t) = Ok (Naive t).

Lemma normalize_storable (name : pyval) (now : Z) (es : list entry) :
  is_ok (hash_key name) = true ->
  Forall (fun a => storable a = true) (normalize name now es).
Proof.
  intros Hname. rewrite normalize_omap. apply Forall_forall.
  intros a (e & _ & Ha)%list_elem_of_omap. unfold kept in Ha.
  destruct (published_time e) as [t|]; [|discriminate].
  case_bool_decide; [|discriminate]. injection Ha as <-.
  unfold storable, timestamp_parses, make_article. simpl.
  rewrite isoformat_reads_back. simpl. by destruct (hash_key name).
Qed.

End Pipeline.

(** The merged list holds only articles of its two inputs, so it can be
    written and read again when they can. *)
Lemma merged_storable `{Platform} (new cached : list pyval) (names : gset hkey)
    (merged : list pyval) :
  Forall (fun a => storable a = true) new ->
  Forall (fun a => storable a = true) cached ->
  merge new cached names = Ok merged ->
  Forall (fun a => storable a = true) merged.
Proof.
  rewrite !Forall_forall. intros Hnew Hcached Hm a Ha.
  destruct (merge_result _ _ _ _ Hm) as (_ & merged1 & _ & _ & added & _ & -> & _ & H1 & H2).
  apply elem_of_app in Ha as [Ha|Ha]; auto.
Qed.

(** ** Worked cases on the sample data *)

Section Cases.
#[local] Existing Instance Sample.platform.
Import Sample.

Example fetch_feed_sample :
  fetch_feed (feed_ref "A" "https://a.example/rss") now =
    Ok {| requested := [VStr "https://a.example/rss"];
          new_articles :=
            [article "A" "Recent" "https://a.example/1" "2024-01-02T11:00:00";
             article "A" "Scheduled" "https://a.example/2" "2024-01-02T13:00:00"] |}.
Proof. vm_compute. reflexivity. Qed.

Example merge_sample :
  merge [fresh_x; unlinked] [cached_x; cached_y; retired_w] names
    = Ok [fresh_x; cached_y].
Proof. vm_compute. reflexivity. Qed.

(** C1, at the sample lists. *)
Lemma merge_links_unique_witness :
  is_ok (merge [fresh_x; unlinked] [cached_x; cached_y; retired_w] names) = true
  /\ forall (i j : nat) (a b : pyval),
       [fresh_x; cached_y] !! i = Some a -> [fresh_x; cached_y] !! j = Some b ->
       (getitem a "link" = getitem b "link" \/ link_key a = link_key b) ->
       i = j.
Proof.
  destruct (merge_links_unique [fresh_x; unlinked] [cached_x; cached_y; retired_w] names)
    as [Hreturns Hunique].
  split.
  - apply Hreturns; repeat constructor.
  - apply Hunique. vm_compute. reflexivity.
Defined.

(** C2, at the sample lists: the link [x] is fresh and cached. *)
Lemma merge_fresh_wins_witness :
  exists f,
    first_with_key (KStr "x") [fresh_x; unlinked] = Some f
    /\ f ∈ [fresh_x; unlinked]
    /\ f ∈ [fresh_x; cached_y]
    /\ forall m, m ∈ [fresh_x; cached_y] -> link_key m = Ok (KStr "x") -> m = f.
Proof.
  apply (merge_fresh_wins [fresh_x; unlinked] [cached_x; cached_y; retired_w] names
           [fresh_x; cached_y] fresh_x cached_x (KStr "x")).
  - vm_compute. reflexivity.
  - apply list_elem_of_here.
  - reflexivity.
  - apply list_elem_of_here.
  - reflexivity.
  - discriminate.
Defined.

(** C3 fails: an article with the placeholder link is dropped by the
    merge, from the fresh list and from the cache alike, though its feed is
    configured. *)
Lemma merge_loses_placeholder_article :
  getitem unlinked "link" = Ok (VStr "No link")
  /\ feed_in names unlinked
  /\ merge [unlinked] [] names = Ok []
  /\ merge [] [unlinked] names = Ok []
  /\ merge [unlinked; fresh_x] [unlinked] names = Ok [fresh_x].
Proof.
  split; [reflexivity|]. split.
  - exists (VStr "A"), (KStr "A"). split; [reflexivity|]. split; [reflexivity|].
    unfold names. set_solver.
  - vm_compute. repeat split.
Qed.

(** C3 as amended, at the sample lists. *)
Lemma merge_drops_placeholder_witness :
  unlinked ∉ [fresh_x; cached_y].
Proof.
  apply (merge_drops_placeholder [fresh_x; unlinked] [cached_x; cached_y; retired_w]
           names [fresh_x; cached_y] unlinked).
  - vm_compute. reflexivity.
  - reflexivity.
Defined.

(** C4 fails: an entry published one hour after now is kept, while the
    window [[now - 24h, now]] of the design excludes it. *)
Lemma normalize_keeps_future_entry :
  published_time future_entry = Ok (Reference.micros 2024 1 2 13 0 0 0)
  /\ now < Reference.micros 2024 1 2 13 0 0 0
  /\ normalize (VStr "A") now [future_entry]
       = [article "A" "Scheduled" "https://a.example/2" "2024-01-02T13:00:00"]
  /\ normalize_spec (VStr "A") now [future_entry] = [].
Proof. vm_compute. repeat split. Qed.

(** C9, at a sample list: the stale article and the one of a retired feed
    do not come back, the other two come back unchanged. *)
Lemma write_then_read_witness :
  writable disk0 = true
  /\ Forall (fun a => storable a = true) [cached_x; stale_z; retired_w; cached_y]
  /\ exists back,
       read_cache
         (cache_file (write_cache [cached_x; stale_z; retired_w; cached_y] now disk0))
         now names = Ok back
       /\ back = filter (fun a => cache_valid now names a = Ok true)
                   [cached_x; stale_z; retired_w; cached_y]
       /\ (forall a, a ∈ [cached_x; stale_z; retired_w; cached_y] ->
             within_window now a -> feed_in names a -> a ∈ back)
       /\ (forall a, a ∈ back ->
             a ∈ [cached_x; stale_z; retired_w; cached_y]
             /\ within_window now a /\ feed_in names a).
Proof.
  assert (Forall (fun a => storable a = true) [cached_x; stale_z; retired_w; cached_y])
    as Hall by (repeat constructor).
  split; [reflexivity|]. split; [exact Hall|].
  apply (write_then_read _ now now disk0 names eq_refl Hall).
Defined.

Example write_then_read_sample :
  read_cache
    (cache_file (write_cache [cached_x; stale_z; retired_w; cached_y] now disk0))
    now names = Ok [cached_x; cached_y].
Proof. vm_compute. reflexivity. Qed.

(** C10 fails: a record without a link does not empty the result, and a
    stale record without a feed is dropped while a valid record next to it
    is returned. *)
Lemma read_cache_tolerates_missing_keys :
  getitem no_link "link" = Raise KeyError
  /\ read_cache (Document (snapshot [no_link])) now names = Ok [no_link]
  /\ getitem stale_no_feed "feed" = Raise KeyError
  /\ read_cache (Document (snapshot [stale_no_feed; cached_x])) now names
       = Ok [cached_x].
Proof. vm_compute. repeat split. Qed.

(** C10 as amended, at a snapshot with a record that has no timestamp. *)
Lemma read_cache_all_or_nothing_witness :
  cached_x ∈ [cached_x; no_timestamp]
  /\ cache_valid now names cached_x = Ok true
  /\ read_cache (Document (snapshot [cached_x; no_timestamp])) now names = Ok [].
Proof.
  split; [apply list_elem_of_here|]. split; [vm_compute; reflexivity|].
  apply (read_cache_all_or_nothing
           [("timestamp", VStr "2024-01-02T11:30:00");
            ("articles", VList [cached_x; no_timestamp])]
           [cached_x; no_timestamp] no_timestamp now names).
  - reflexivity.
  - apply list_elem_of_further, list_elem_of_here.
  - apply timestamp_missing. reflexivity.
Defined.

End Cases.

(** * Further properties *)

(** ** More on the cache store *)

Section CacheShape.
Context `{Platform}.

Lemma cache_valid_needs_dict (now : Z) (names : gset hkey) (a : pyval) :
  cache_valid now names a = Ok true -> exists d, a = VDict d.
Proof.
  intros [(s & t & Hts & _) _]%cache_valid_true.
  destruct a; try discriminate. eauto.
Qed.

(** The two ways a read ends: with nothing, or with the filtered article
    list of a snapshot that is an object. *)
Lemma read_cache_cases (f : file_state) (now : Z) (names : gset hkey) (back : list pyval) :
  read_cache f now names = Ok back ->
  back = []
  \/ exists d items,
       f = Document (VDict d)
       /\ dict_lookup d "articles" = Some (VList items)
       /\ filter_r (cache_valid now names) items = Ok back.
Proof.
  intros Hr. destruct back as [|a back]; [by left | right].
  pose proof (read_cache_items _ _ _ _ a Hr (list_elem_of_here _ _)) as Ha.
  apply cache_valid_needs_dict in Ha as [da ->].
  unfold read_cache in Hr.
  destruct f as [| | |v]; try discriminate. simpl in Hr.
  destruct v as [| | | | |d]; try discriminate. simpl in Hr.
  destruct (dict_lookup d "articles") as [c|] eqn:Hc; [|discriminate].
  simpl in Hr. exists d.
  destruct c as [| | |s|items|dc]; try discriminate; simpl in Hr.
  - destruct (filter_r _ _) as [r|] eqn:Hf; [|discriminate]. injection Hr as ->.
    apply filter_r_ok in Hf as [Hf _].
    assert (VDict da ∈ filter (fun a => cache_valid now names a = Ok true)
              (map (fun c => VStr (String c EmptyString)) (list_ascii_of_string s)))
      as Hin by (rewrite <- Hf; left).
    apply list_elem_of_filter in Hin as [_ Hin].
    apply list_elem_of_fmap in Hin as (? & [=] & _).
  - exists items. destruct (filter_r _ items) as [r|]; [|discriminate].
    injection Hr as ->. auto.
  - destruct (filter_r _ _) as [r|] eqn:Hf; [|discriminate]. injection Hr as ->.
    apply filter_r_ok in Hf as [Hf _].
    assert (VDict da ∈ filter (fun a => cache_valid now names a = Ok true)
              (map (fun kv => VStr (fst kv)) dc))
      as Hin by (rewrite <- Hf; left).
    apply list_elem_of_filter in Hin as [_ Hin].
    apply list_elem_of_fmap in Hin as (? & [=] & _).
Qed.

(** X1: [read_cache] returns articles only from a snapshot that is a JSON
    object whose ["articles"] entry is a list, and what it returns is a
    sub-sequence of that list: records are neither reordered, nor
    repeated, nor altered.  Any other document reads as the empty list. *)
Theorem read_cache_subsequence (f : file_state) (now : Z)
    (current_feed_names : gset hkey) (back : list pyval) :
  read_cache f now current_feed_names = Ok back ->
  back = []
  \/ exists d items,
       f = Document (VDict d)
       /\ dict_lookup d "articles" = Some (VList items)
       /\ sublist back items.
Proof.
  intros [->|(d & items & -> & Hd & Hf)]%read_cache_cases; [by left | right].
  exists d, items. split; [reflexivity|]. split; [exact Hd|].
  apply filter_r_ok in Hf as [-> _]. apply sublist_filter.
Qed.

Lemma cache_valid_more_names (now : Z) (names names' : gset hkey) (a : pyval) (b : bool) :
  names ⊆ names' ->
  cache_valid now names a = Ok b ->
  exists b', cache_valid now names' a = Ok b' /\ (b = true -> b' = true).
Proof.
  intros Hsub. unfold cache_valid. intros Hv. inv_bind Hv. rewrite E. simpl.
  destruct (Z.leb _ _); [|eauto].
  inv_bind Hv. rewrite E0. simpl. unfold py_in in *. inv_bind Hv. rewrite E1.
  simpl. injection Hv as <-. eexists. split; [reflexivity|].
  intros Hin%bool_decide_eq_true. apply bool_decide_eq_true. set_solver.
Qed.

Lemma filter_r_more_names (now : Z) (names names' : gset hkey)
    (items back : list pyval) :
  names ⊆ names' ->
  filter_r (cache_valid now names) items = Ok back ->
  exists back', filter_r (cache_valid now names') items = Ok back'
    /\ forall a, a ∈ back -> a ∈ back'.
Proof.
  intros Hsub. revert back. induction items as [|a items IH]; intros back Hf; simpl in *.
  - injection Hf as <-. eauto.
  - inv_bind Hf. inv_bind Hf. injection Hf as <-.
    destruct (cache_valid_more_names _ _ _ _ _ Hsub E) as (b' & -> & Hb).
    destruct (IH _ E0) as (back' & -> & Hin). simpl. eexists. split; [reflexivity|].
    intros c Hc. destruct x.
    + rewrite Hb by reflexivity.
      apply elem_of_cons in Hc as [->|Hc]; [left | right; auto].
    + destruct b'; [right|]; auto.
Qed.

(** X2: configuring more feeds never loses a cached article: what a read
    returns for a set of feed names it returns for every larger set, the
    file and the time being the same. *)
Theorem read_cache_more_names (f : file_state) (now : Z)
    (names names' : gset hkey) (back : list pyval) :
  names ⊆ names' ->
  read_cache f now names = Ok back ->
  exists back',
    read_cache f now names' = Ok back'
    /\ forall a, a ∈ back -> a ∈ back'.
Proof.
  intros Hsub [->|(d & items & -> & Hd & Hf)]%read_cache_cases.
  - destruct (read_cache_returns f now names') as [back' Hr]. exists back'.
    split; [exact Hr|]. intros a Ha. by apply elem_of_nil in Ha.
  - destruct (filter_r_more_names _ _ _ _ _ Hsub Hf) as (back' & Hf' & Hin).
    exists back'. split; [|exact Hin].
    rewrite (read_cache_document _ _ _ _ Hd), Hf'. reflexivity.
Qed.

Lemma within_window_earlier (now now' : Z) (a : pyval) :
  now <= now' -> within_window now' a -> within_window now a.
Proof.
  intros Hle (s & t & Hts & Hiso & Hage). exists s, t.
  split; [exact Hts|]. split; [exact Hiso | lia].
Qed.

(** X3: cached articles only ever expire.  For a snapshot of articles
    whose timestamps read back and whose feeds are hashable, every article
    a later read returns is returned by an earlier read too. *)
Theorem read_cache_expiry (d : list (string * pyval)) (items : list pyval)
    (now now' : Z) (current_feed_names : gset hkey) :
  dict_lookup d "articles" = Some (VList items) ->
  Forall (fun a => storable a = true) items ->
  now <= now' ->
  exists early late,
    read_cache (Document (VDict d)) now current_feed_names = Ok early
    /\ read_cache (Document (VDict d)) now' current_feed_names = Ok late
    /\ forall a, a ∈ late -> a ∈ early.
Proof.
  intros Hd Hall Hle. rewrite !(read_cache_document _ _ _ _ Hd).
  rewrite !filter_r_total
    by (eapply Forall_impl; [exact Hall | intros a Ha; by apply storable_judged]).
  simpl. eexists _, _. split; [reflexivity|]. split; [reflexivity|].
  intros a [Hv Hin]%list_elem_of_filter. apply list_elem_of_filter.
  split; [|exact Hin]. apply cache_valid_true in Hv as [Hw Hfeed].
  apply cache_valid_holds; [|exact Hfeed]. by eapply within_window_earlier.
Qed.

End CacheShape.

(** ** More on the merge step *)

Section MergeShape.

Implicit Types (seen : gset hkey) (merged : list pyval) (ks : list hkey).

Lemma for_each_sublist (P : pyval -> Prop) body (l : list pyval)
    seen merged seen' merged' :
  (forall seen merged a st',
      body (seen, merged) a = Ok st' ->
      st' = (seen, merged) \/ (P a /\ exists k, st' = ({[ k ]} ∪ seen, merged ++ [a]))) ->
  for_each body l (seen, merged) = Ok (seen', merged') ->
  exists added, merged' = merged ++ added /\ sublist added l /\ Forall P added.
Proof.
  intros Hbody. revert seen merged.
  induction l as [|a l IH]; intros seen merged Hrun; simpl in Hrun.
  - injection Hrun as <- <-. exists []. rewrite app_nil_r. repeat constructor.
  - inv_bind Hrun. destruct (Hbody _ _ _ _ E) as [-> | (Ha & k & ->)].
    + destruct (IH _ _ Hrun) as (added & -> & Hsub & HP).
      exists added. split; [reflexivity|]. split; [by constructor | exact HP].
    + destruct (IH _ _ Hrun) as (added & -> & Hsub & HP).
      exists (a :: added). rewrite <- app_assoc.
      split; [reflexivity|]. split; [by constructor | by constructor].
Qed.

Lemma add_new_step seen merged (a : pyval) st' :
  add_new (seen, merged) a = Ok st' ->
  st' = (seen, merged) \/ (True /\ exists k, st' = ({[ k ]} ∪ seen, merged ++ [a])).
Proof.
  intros [->|(k & _ & _ & _ & ->)]%add_new_admits; [by left | right; eauto].
Qed.

Lemma add_cached_step (names : gset hkey) seen merged (a : pyval) st' :
  add_cached names (seen, merged) a = Ok st' ->
  st' = (seen, merged)
  \/ (feed_in names a /\ exists k, st' = ({[ k ]} ∪ seen, merged ++ [a])).
Proof.
  unfold add_cached. intros Hst. inv_bind Hst. inv_bind Hst.
  destruct (negb _ && negb _); [|injection Hst as <-; by left].
  inv_bind Hst. inv_bind Hst. destruct x2; injection Hst as <-; [right | by left].
  unfold py_in in E2. inv_bind E2. injection E2 as Hin%bool_decide_eq_true.
  split; [|eauto]. exists x1, x2. auto.
Qed.

(** X4: the merged list is a sub-sequence of the fresh list followed by a
    sub-sequence of the cached list, so fresh articles come first and both
    keep their order; and every article taken from the cache has its feed
    in the current feed names. *)
Theorem merge_order_and_origin (new cached : list pyval)
    (current_feed_names : gset hkey) (merged : list pyval) :
  merge new cached current_feed_names = Ok merged ->
  exists fresh kept,
    merged = fresh ++ kept
    /\ sublist fresh new
    /\ sublist kept cached
    /\ Forall (feed_in current_feed_names) kept.
Proof.
  unfold merge. intros Hm. inv_bind Hm. inv_bind Hm. injection Hm as <-.
  destruct x as [seen1 merged1], x0 as [seen2 merged2]. simpl.
  destruct (for_each_sublist _ _ _ _ _ _ _ add_new_step E)
    as (fresh & -> & Hfresh & _).
  destruct (for_each_sublist _ _ _ _ _ _ _ (add_cached_step current_feed_names) E0)
    as (kept & -> & Hkept & Hfeeds).
  exists fresh, kept. auto.
Qed.

Lemma for_each_seen_grows body (l : list pyval) seen merged seen' merged' :
  admits body ->
  for_each body l (seen, merged) = Ok (seen', merged') ->
  seen ⊆ seen'.
Proof.
  intros Hbody. revert seen merged.
  induction l as [|a l IH]; intros seen merged Hrun; simpl in Hrun.
  - by injection Hrun as <- <-.
  - inv_bind Hrun. destruct (Hbody _ _ _ _ E) as [-> | (k & _ & _ & _ & ->)].
    + by eapply IH.
    + apply IH in Hrun. set_solver.
Qed.

Lemma for_each_covers (eligible : pyval -> Prop) body (l : list pyval)
    seen merged seen' merged' :
  admits body ->
  (forall seen merged a st' k,
      body (seen, merged) a = Ok st' -> link_key a = Ok k -> k <> placeholder ->
      eligible a -> k ∈ st'.1) ->
  for_each body l (seen, merged) = Ok (seen', merged') ->
  forall a k, a ∈ l -> link_key a = Ok k -> k <> placeholder -> eligible a ->
    k ∈ seen'.
Proof.
  intros Hadm Hbody. revert seen merged.
  induction l as [|b l IH]; intros seen merged Hrun a k Hin Hk Hne Hel.
  { by apply elem_of_nil in Hin. }
  simpl in Hrun. inv_bind Hrun. destruct x as [seen1 merged1].
  apply elem_of_cons in Hin as [->|Hin].
  - pose proof (Hbody _ _ _ _ _ E Hk Hne Hel) as Hk1. simpl in Hk1.
    by apply (for_each_seen_grows _ _ _ _ _ _ Hadm Hrun).
  - by eapply IH.
Qed.

Lemma not_placeholder_eq_str (link : pyval) (k : hkey) :
  hash_key link = Ok k -> k <> placeholder -> eq_str link "No link" = false.
Proof.
  destruct link; simpl; intros [= <-] Hne; try reflexivity.
  apply String.eqb_neq. intros ->. by apply Hne.
Qed.

Lemma add_new_covers seen merged (a : pyval) st' (k : hkey) :
  add_new (seen, merged) a = Ok st' -> link_key a = Ok k -> k <> placeholder ->
  True -> k ∈ st'.1.
Proof.
  unfold add_new, link_key. intros Hst Hk Hne _.
  destruct (getitem a "link") as [link|]; [simpl in *|discriminate].
  rewrite Hk in Hst. simpl in Hst.
  rewrite (not_placeholder_eq_str _ _ Hk Hne) in Hst.
  case_bool_decide; injection Hst as <-; simpl; set_solver.
Qed.

Lemma add_cached_covers (names : gset hkey) seen merged (a : pyval) st' (k : hkey) :
  add_cached names (seen, merged) a = Ok st' -> link_key a = Ok k ->
  k <> placeholder -> feed_in names a -> k ∈ st'.1.
Proof.
  unfold add_cached, link_key. intros Hst Hk Hne (feed & kf & Hfeed & Hkf & Hin).
  destruct (getitem a "link") as [link|]; [simpl in *|discriminate].
  rewrite Hk in Hst. simpl in Hst.
  rewrite (not_placeholder_eq_str _ _ Hk Hne) in Hst.
  case_bool_decide; simpl in Hst; [injection Hst as <-; by simpl|].
  rewrite Hfeed in Hst. simpl in Hst. unfold py_in in Hst. rewrite Hkf in Hst.
  simpl in Hst. rewrite bool_decide_eq_true_2 in Hst by exact Hin.
  injection Hst as <-. simpl. set_solver.
Qed.

Lemma merge_inv_seen ks seen merged (k : hkey) :
  merge_inv ks seen merged -> k ∈ seen ->
  exists m, m ∈ merged /\ link_key m = Ok k.
Proof.
  intros (Hkeys & _ & Hseen & _) [i Hi]%Hseen%list_elem_of_lookup.
  destruct (Forall2_lookup_r _ _ _ _ _ Hkeys Hi) as (m & Hm & Hk).
  exists m. split; [|exact Hk]. apply list_elem_of_lookup. eauto.
Qed.

(** X5: the merge loses no link.  Every link other than the placeholder
    that a fresh article carries, or a cached article of a current feed,
    is the link of an article of the merged list. *)
Theorem merge_covers_links (new cached : list pyval)
    (current_feed_names : gset hkey) (merged : list pyval) (a : pyval) (k : hkey) :
  merge new cached current_feed_names = Ok merged ->
  a ∈ new \/ (a ∈ cached /\ feed_in current_feed_names a) ->
  link_key a = Ok k ->
  k <> placeholder ->
  exists m, m ∈ merged /\ link_key m = Ok k.
Proof.
  unfold merge. intros Hm Ha Hk Hne. inv_bind Hm. inv_bind Hm. injection Hm as <-.
  destruct x as [seen1 merged1], x0 as [seen2 merged2]. simpl.
  destruct (for_each_admits _ _ _ _ _ _ _ add_new_admits E merge_inv_empty)
    as (ks1 & added1 & _ & Hinv1 & _).
  destruct (for_each_admits _ _ _ _ _ _ _ (add_cached_admits current_feed_names)
              E0 Hinv1) as (ks2 & added2 & _ & Hinv2 & _).
  eapply merge_inv_seen; [exact Hinv2|].
  destruct Ha as [Ha|[Ha Hfeed]].
  - apply (for_each_seen_grows _ _ _ _ _ _ (add_cached_admits current_feed_names) E0).
    eapply (for_each_covers (fun _ => True)); eauto using add_new_admits, add_new_covers.
  - eapply (for_each_covers (feed_in current_feed_names));
      eauto using add_cached_admits, add_cached_covers.
Qed.

Lemma for_each_raises {S} (body : S -> pyval -> result S) (l : list pyval) (s : S)
    (a : pyval) :
  a ∈ l -> (forall s', is_ok (body s' a) = false) ->
  is_ok (for_each body l s) = false.
Proof.
  intros Hin Hbad. revert s. induction Hin as [a l|a b l _ IH]; intros s; simpl.
  - specialize (Hbad s). by destruct (body s a).
  - destruct (body s b); simpl; [by apply IH | reflexivity].
Qed.

Lemma add_new_needs_link (st : gset hkey * list pyval) (a : pyval) :
  is_ok (link_key a) = false -> is_ok (add_new st a) = false.
Proof.
  unfold add_new, link_key. destruct st as [seen merged].
  destruct (getitem a "link") as [link|]; [simpl|done].
  by destruct (hash_key link).
Qed.

Lemma add_cached_needs_link (names : gset hkey) (st : gset hkey * list pyval)
    (a : pyval) :
  is_ok (link_key a) = false -> is_ok (add_cached names st a) = false.
Proof.
  unfold add_cached, link_key. destruct st as [seen merged].
  destruct (getitem a "link") as [link|]; [simpl|done].
  by destruct (hash_key link).
Qed.

(** X6: one article without a usable link makes the merge raise.  When a
    fresh or a cached article has no ["link"] key, or has a list or a dict
    under it, the merge step returns no list: the exception leaves
    [main]. *)
Theorem merge_raises_without_link (new cached : list pyval)
    (current_feed_names : gset hkey) (a : pyval) :
  a ∈ new \/ a ∈ cached ->
  is_ok (link_key a) = false ->
  is_ok (merge new cached current_feed_names) = false.
Proof.
  intros Hin Hbad. unfold merge.
  destruct Hin as [Hin|Hin].
  - pose proof (for_each_raises add_new new (∅, []) a Hin
                  (fun s => add_new_needs_link s a Hbad)) as Hr.
    by destruct (for_each add_new new (∅, [])).
  - destruct (for_each add_new new (∅, [])) as [st|]; [simpl|reflexivity].
    pose proof (for_each_raises (add_cached current_feed_names) cached st a Hin
                  (fun s => add_cached_needs_link _ s a Hbad)) as Hr.
    by destruct (for_each (add_cached current_feed_names) cached st).
Qed.

End MergeShape.

(** ** The merge step and the cache together *)

Section MergeCache.
Context `{Platform}.

Implicit Types (seen : gset hkey) (merged : list pyval) (ks : list hkey).

Lemma for_each_ext_in {S} (f g : S -> pyval -> result S) (l : list pyval) (s : S) :
  (forall s' a, a ∈ l -> f s' a = g s' a) ->
  for_each f l s = for_each g l s.
Proof.
  revert s. induction l as [|a l IH]; intros s Hfg; simpl; [reflexivity|].
  rewrite Hfg by left. destruct (g s a) as [s1|]; simpl; [|reflexivity].
  apply IH. intros s' b Hb. apply Hfg. by right.
Qed.

Lemma add_cached_more_names (names names' : gset hkey)
    (st : gset hkey * list pyval) (a : pyval) :
  names ⊆ names' -> feed_in names a ->
  add_cached names' st a = add_cached names st a.
Proof.
  intros Hsub (feed & k & Hfeed & Hk & Hin). unfold add_cached.
  destruct st as [seen merged].
  destruct (getitem a "link") as [link|]; [simpl|reflexivity].
  destruct (hash_key link) as [kl|]; [simpl|reflexivity].
  destruct (negb _ && negb _); [|reflexivity].
  rewrite Hfeed. simpl. unfold py_in. rewrite Hk. simpl.
  rewrite !bool_decide_eq_true_2; [reflexivity | exact Hin | by apply Hsub].
Qed.

(** X7: in [main] the feed test of the second loop rejects nothing.  On a
    cached list that [read_cache] returned for the current feed names, the
    merge gives the same result for these names and for any larger set. *)
Theorem merge_feed_test_redundant (f : file_state) (now : Z)
    (names names' : gset hkey) (new cached : list pyval) :
  read_cache f now names = Ok cached ->
  names ⊆ names' ->
  merge new cached names' = merge new cached names.
Proof.
  intros Hr Hsub. unfold merge.
  destruct (for_each add_new new (∅, [])) as [st|]; [simpl|reflexivity].
  rewrite (for_each_ext_in (add_cached names') (add_cached names)); [reflexivity|].
  intros s a Ha. apply add_cached_more_names; [exact Hsub|].
  pose proof (read_cache_items _ _ _ _ _ Hr Ha) as Hv.
  by apply cache_valid_true in Hv as [_ Hfeed].
Qed.

Lemma for_each_takes_all (P : pyval -> Prop) body (l : list pyval) ks seen
    (acc : list pyval) :
  (forall seen acc a k,
      link_key a = Ok k -> k ∉ seen -> k <> placeholder -> P a ->
      body (seen, acc) a = Ok ({[ k ]} ∪ seen, acc ++ [a])) ->
  Forall2 (fun a k => link_key a = Ok k) l ks ->
  NoDup ks -> placeholder ∉ ks ->
  (forall k, k ∈ ks -> k ∉ seen) ->
  Forall P l ->
  exists seen', for_each body l (seen, acc) = Ok (seen', acc ++ l).
Proof.
  intros Hbody Hkeys. revert seen acc.
  induction Hkeys as [|a k l ks Hk _ IH]; intros seen acc Hnd Hph Hfresh HP; simpl.
  - exists seen. by rewrite app_nil_r.
  - apply NoDup_cons in Hnd as [Hk_notin Hnd].
    apply Forall_cons in HP as [Ha HP].
    rewrite (Hbody seen acc a k); [simpl| exact Hk | | | exact Ha].
    + destruct (IH ({[ k ]} ∪ seen) (acc ++ [a])) as [seen' ->]; try done.
      * intros Hin. apply Hph. by right.
      * intros k' Hk' [->%elem_of_singleton|Hs]%elem_of_union; [done|].
        eapply Hfresh; [|exact Hs]. by right.
      * exists seen'. by rewrite <- app_assoc.
    + apply Hfresh. by left.
    + intros ->. apply Hph. by left.
Qed.

Lemma add_new_takes seen (acc : list pyval) (a : pyval) (k : hkey) :
  link_key a = Ok k -> k ∉ seen -> k <> placeholder -> True ->
  add_new (seen, acc) a = Ok ({[ k ]} ∪ seen, acc ++ [a]).
Proof.
  unfold add_new, link_key. intros Hk Hseen Hne _.
  destruct (getitem a "link") as [link|]; [simpl in *|discriminate].
  rewrite Hk. simpl. rewrite (not_placeholder_eq_str _ _ Hk Hne).
  by rewrite bool_decide_eq_false_2.
Qed.

Lemma add_cached_takes (names : gset hkey) seen (acc : list pyval) (a : pyval) (k : hkey) :
  link_key a = Ok k -> k ∉ seen -> k <> placeholder -> feed_in names a ->
  add_cached names (seen, acc) a = Ok ({[ k ]} ∪ seen, acc ++ [a]).
Proof.
  unfold add_cached, link_key. intros Hk Hseen Hne (feed & kf & Hfeed & Hkf & Hin).
  destruct (getitem a "link") as [link|]; [simpl in *|discriminate].
  rewrite Hk. simpl. rewrite (not_placeholder_eq_str _ _ Hk Hne).
  rewrite bool_decide_eq_false_2 by exact Hseen. simpl.
  rewrite Hfeed. simpl. unfold py_in. rewrite Hkf. simpl.
  by rewrite bool_decide_eq_true_2.
Qed.

Lemma distinct_links_all_fresh ks seen merged (names : gset hkey) :
  merge_inv ks seen merged -> merge merged [] names = Ok merged.
Proof.
  intros (Hkeys & Hnd & _ & Hph). unfold merge.
  destruct (for_each_takes_all (fun _ => True) add_new merged ks ∅ [])
    as [seen' ->];
    [apply add_new_takes | exact Hkeys | exact Hnd | exact Hph
    | intros k _ Hk; by apply elem_of_empty in Hk | by apply Forall_true | reflexivity].
Qed.

Lemma distinct_links_all_cached ks seen merged (names : gset hkey) :
  merge_inv ks seen merged -> Forall (feed_in names) merged ->
  merge [] merged names = Ok merged.
Proof.
  intros (Hkeys & Hnd & _ & Hph) Hfeeds. unfold merge. simpl.
  destruct (for_each_takes_all (feed_in names) (add_cached names) merged ks ∅ [])
    as [seen' ->];
    [apply add_cached_takes | exact Hkeys | exact Hnd | exact Hph
    | intros k _ Hk; by apply elem_of_empty in Hk | exact Hfeeds | reflexivity].
Qed.

(** X8: merging is idempotent.  A list the merge returned comes back
    unchanged when it is merged again as the fresh list with nothing
    cached, and also as the cached list with nothing fresh provided its
    feeds are all current. *)
Theorem merge_idempotent (new cached : list pyval) (current_feed_names : gset hkey)
    (merged : list pyval) :
  merge new cached current_feed_names = Ok merged ->
  merge merged [] current_feed_names = Ok merged
  /\ (Forall (feed_in current_feed_names) merged ->
      merge [] merged current_feed_names = Ok merged).
Proof.
  intros Hm.
  destruct (merge_result _ _ _ _ Hm) as (_ & _ & seen & ks & _ & _ & _ & Hinv & _).
  split; [by eapply distinct_links_all_fresh|].
  intros Hfeeds. by eapply distinct_links_all_cached.
Qed.

Lemma filter_all {A} (P : A -> Prop) `{forall a, Decision (P a)} (l : list A) :
  Forall P l -> filter P l = l.
Proof.
  induction 1 as [|a l Ha _ IH]; [reflexivity|].
  rewrite filter_cons, IH. by case_decide.
Qed.

Lemma read_back_all (merged : list pyval) (written now : Z) (names : gset hkey) :
  Forall (within_window now) merged ->
  Forall (feed_in names) merged ->
  read_cache
    (Document (VDict [("timestamp", VStr (isoformat written));
                      ("articles", VList merged)])) now names = Ok merged.
Proof.
  intros Hw Hfeeds. rewrite (read_cache_document _ merged); [|reflexivity].
  assert (Forall (fun a => cache_valid now names a = Ok true) merged) as Hv.
  { rewrite Forall_forall in *. intros a Ha. apply cache_valid_holds; auto. }
  rewrite filter_r_total.
  - simpl. by rewrite filter_all.
  - eapply Forall_impl; [exact Hv|]. by intros a ->.
Qed.

(** X9: a run with nothing new reproduces the list.  When the merged list
    has been committed to a writable disk, a later read, at a time when its
    articles are still within the window and with their feeds still
    configured, returns exactly that list, and merging it with no fresh
    article gives that list again. *)
Theorem rerun_reproduces (new cached : list pyval) (current_feed_names : gset hkey)
    (merged : list pyval) (now1 now2 later : Z) (d : disk) :
  merge new cached current_feed_names = Ok merged ->
  writable d = true ->
  Forall (within_window later) merged ->
  Forall (feed_in current_feed_names) merged ->
  read_cache (cache_file (commit merged now1 now2 d)) later current_feed_names
    = Ok merged
  /\ merge [] merged current_feed_names = Ok merged.
Proof.
  intros Hm Hw Hwin Hfeeds. split.
  - destruct d as [f w]. simpl in Hw. subst w.
    destruct merged as [|a l]; [reflexivity|].
    unfold commit, write_cache, open_for_writing. simpl cache_file.
    by apply read_back_all.
  - destruct (merge_result _ _ _ _ Hm) as (_ & _ & seen & ks & _ & _ & _ & Hinv & _).
    by eapply distinct_links_all_cached.
Qed.

End MergeCache.

(** ** More on fetching *)

Section FetchShape.
Context `{Platform}.

(** Where an article of [fetch_feed] comes from. *)
Lemma fetch_feed_origin (feed : pyval) (now : Z) (r : fetched) (a : pyval) :
  fetch_feed feed now = Ok r -> a ∈ new_articles r ->
  exists d name url e,
    feed = VDict d
    /\ dict_lookup d "name" = Some name /\ truthy name = true
    /\ dict_lookup d "url" = Some url /\ truthy url = true
    /\ kept name now e = Some a.
Proof.
  unfold fetch_feed. intros Hr Ha.
  destruct feed as [| | | | |d]; try discriminate. simpl in Hr.
  destruct (dict_lookup d "name") as [name|] eqn:Hname; simpl in Hr;
    destruct (dict_lookup d "url") as [url|] eqn:Hurl; simpl in Hr;
    rewrite ?orb_true_r in Hr;
    try (injection Hr as <-; by apply elem_of_nil in Ha).
  destruct (truthy name) eqn:Hn; simpl in Hr;
    [|injection Hr as <-; by apply elem_of_nil in Ha].
  destruct (truthy url) eqn:Hu; simpl in Hr;
    [|injection Hr as <-; by apply elem_of_nil in Ha].
  match type of Hr with context [match ?b with _ => _ end] =>
    destruct b as [parsed|] end;
    [|injection Hr as <-; by apply elem_of_nil in Ha].
  destruct (bozo parsed); injection Hr as <-; simpl in Ha;
    [by apply elem_of_nil in Ha|].
  rewrite normalize_omap in Ha. apply list_elem_of_omap in Ha as (e & _ & He).
  exists d, name, url, e. repeat split; assumption.
Qed.

Lemma kept_article (name : pyval) (now : Z) (e : entry) (a : pyval) :
  kept name now e = Some a ->
  exists t, published_time e = Ok t
    /\ now - t <= timedelta_hours MAX_AGE_HOURS
    /\ a = make_article name e t.
Proof.
  unfold kept. destruct (published_time e) as [t|]; [|discriminate].
  case_bool_decide; [|discriminate]. intros [= <-]. eauto.
Qed.


Lemma fetch_feed_request_cases (feed : pyval) (now : Z) (r : fetched) :
  fetch_feed feed now = Ok r ->
  (requested r = [] /\ new_articles r = [])
  \/ exists d name url,
       feed = VDict d
       /\ dict_lookup d "name" = Some name /\ truthy name = true
       /\ dict_lookup d "url" = Some url /\ truthy url = true
       /\ requested r = [url].
Proof.
  unfold fetch_feed. intros Hr.
  destruct feed as [| | | | |d]; try discriminate. simpl in Hr.
  destruct (dict_lookup d "name") as [name|] eqn:Hname; simpl in Hr;
    destruct (dict_lookup d "url") as [url|] eqn:Hurl; simpl in Hr;
    rewrite ?orb_true_r in Hr; try (injection Hr as <-; by left).
  destruct (truthy name) eqn:Hn; simpl in Hr; [|injection Hr as <-; by left].
  destruct (truthy url) eqn:Hu; simpl in Hr; [|injection Hr as <-; by left].
  right. exists d, name, url. repeat (split; [done|]).
  match type of Hr with context [match ?b with _ => _ end] =>
    destruct b as [parsed|] end; [|by injection Hr as <-].
  by destruct (bozo parsed); injection Hr as <-.
Qed.


(** X12: a fresh article passes the age test of the cache at the moment it
    is fetched, provided the ISO text of its publish time reads back as
    that time. *)
Theorem normalize_within_window (name : pyval) (now : Z) (es : list entry) (a : pyval) :
  (forall e t, e ∈ es -> published_time e = Ok t ->
     fromisoformat (isoformat t) = Ok (Naive t)) ->
  a ∈ normalize name now es ->
  within_window now a.
Proof.
  intros Hiso Ha. rewrite normalize_omap in Ha.
  apply list_elem_of_omap in Ha as (e & He & Hk).
  apply kept_article in Hk as (t & Ht & Hage & ->).
  exists (isoformat t), t. split; [reflexivity|]. split; [|exact Hage].
  by eapply Hiso.
Qed.

(** The articles gathered from the [i]-th future on. *)
Lemma fetch_feeds_from_elem (clock : nat -> Z) (feeds : list pyval) (i : nat)
    (acc : fetched) (a : pyval) :
  a ∈ new_articles (fetch_feeds_from clock i feeds acc) <->
  a ∈ new_articles acc
  \/ exists j feed r, feeds !! j = Some feed
       /\ fetch_feed feed (clock (i + j)%nat) = Ok r /\ a ∈ new_articles r.
Proof.
  revert i acc. induction feeds as [|feed feeds IH]; intros i acc; simpl.
  - split; [auto|]. intros [?|(j & ? & ? & [=] & _)]. done.
  - rewrite IH. split.
    + intros [Ha|(j & f & r & Hj & Hr & Ha)].
      * destruct (fetch_feed feed (clock i)) as [r|] eqn:Hr; [|by left].
        simpl in Ha. apply elem_of_app in Ha as [Ha|Ha]; [by left|].
        right. exists 0%nat, feed, r. by rewrite Nat.add_0_r.
      * right. exists (S j), f, r. by rewrite Nat.add_succ_r.
    + intros [Ha|(j & f & r & Hj & Hr & Ha)].
      * left. destruct (fetch_feed feed (clock i)); [|done].
        simpl. apply elem_of_app. by left.
      * destruct j as [|j]; simpl in Hj.
        -- injection Hj as <-. rewrite Nat.add_0_r in Hr. rewrite Hr. left.
           simpl. apply elem_of_app. by right.
        -- right. exists j, f, r. by rewrite Nat.add_succ_r in Hr.
Qed.

Lemma fetch_feeds_from_acc (clock : nat -> Z) (feeds : list pyval) (i : nat)
    (acc : fetched) :
  new_articles (fetch_feeds_from clock i feeds acc) =
    new_articles acc
    ++ new_articles (fetch_feeds_from clock i feeds {| requested := []; new_articles := [] |}).
Proof.
  revert i acc. induction feeds as [|feed feeds IH]; intros i acc; simpl.
  - by rewrite app_nil_r.
  - rewrite IH. symmetry. rewrite IH. symmetry.
    destruct (fetch_feed feed (clock i)); simpl; [|reflexivity].
    by rewrite app_assoc.
Qed.

Lemma fetch_feeds_from_app (clock : nat -> Z) (l1 l2 : list pyval) (i : nat)
    (acc : fetched) :
  fetch_feeds_from clock i (l1 ++ l2) acc =
    fetch_feeds_from clock (i + length l1) l2 (fetch_feeds_from clock i l1 acc).
Proof.
  revert i acc. induction l1 as [|feed l1 IH]; intros i acc; simpl.
  - by rewrite Nat.add_0_r.
  - rewrite IH. by rewrite Nat.add_succ_r.
Qed.

Lemma fetch_feeds_from_clock (c1 c2 : nat -> Z) (feeds : list pyval) (i k : nat)
    (acc : fetched) :
  (forall j, c1 (i + j)%nat = c2 (k + j)%nat) ->
  fetch_feeds_from c1 i feeds acc = fetch_feeds_from c2 k feeds acc.
Proof.
  revert i k acc. induction feeds as [|feed feeds IH]; intros i k acc Hc; simpl.
  - reflexivity.
  - pose proof (Hc 0%nat) as H0. rewrite !Nat.add_0_r in H0. rewrite H0.
    apply IH. intros j. specialize (Hc (S j)). by rewrite !Nat.add_succ_r in Hc.
Qed.

Lemma fetch_feeds_from_shift (clock : nat -> Z) (feeds : list pyval) (i : nat)
    (acc : fetched) :
  fetch_feeds_from clock i feeds acc =
    fetch_feeds_from (fun j => clock (i + j)%nat) 0 feeds acc.
Proof. apply fetch_feeds_from_clock. intros j. reflexivity. Qed.

(** X13: the orchestrator returns exactly the articles of the feeds whose
    fetch returned: an article is in the result if and only if some feed
    of the list, fetched at its worker's clock reading, returned it.  A
    feed whose fetch raises adds nothing and removes nothing. *)
Theorem fetch_feeds_collects (feeds : list pyval) (clock : nat -> Z) (a : pyval) :
  a ∈ new_articles (fetch_feeds feeds clock) <->
  exists i feed r, feeds !! i = Some feed
    /\ fetch_feed feed (clock i) = Ok r /\ a ∈ new_articles r.
Proof.
  unfold fetch_feeds. rewrite fetch_feeds_from_elem. simpl. split.
  - intros [Ha|Ha]; [by apply elem_of_nil in Ha | exact Ha].
  - auto.
Qed.

(** X14: the orchestrator keeps the order of the feed list: the articles of
    a list of feeds followed by another are those of the first list
    followed by those of the second, each feed at its own clock reading. *)
Theorem fetch_feeds_app (l1 l2 : list pyval) (clock : nat -> Z) :
  new_articles (fetch_feeds (l1 ++ l2) clock) =
    new_articles (fetch_feeds l1 clock)
    ++ new_articles (fetch_feeds l2 (fun j => clock (length l1 + j)%nat)).
Proof.
  unfold fetch_feeds. rewrite fetch_feeds_from_app, fetch_feeds_from_acc. simpl.
  f_equal. f_equal. apply fetch_feeds_from_shift.
Qed.

Lemma feed_names_grow (feeds : list pyval) (acc names : gset hkey) :
  for_each add_feed_name feeds acc = Ok names ->
  acc ⊆ names
  /\ forall d name, VDict d ∈ feeds -> dict_lookup d "name" = Some name ->
       exists k, hash_key name = Ok k /\ k ∈ names.
Proof.
  revert acc. induction feeds as [|feed feeds IH]; intros acc Hn; simpl in Hn.
  - injection Hn as <-. split; [done|]. intros d name Hin. by apply elem_of_nil in Hin.
  - inv_bind Hn. destruct (IH _ Hn) as [Hsub Hall].
    unfold add_feed_name in E. inv_bind E. split.
    + destruct x0; [|injection E as <-; done].
      inv_bind E. inv_bind E. injection E as <-.
      etrans; [|exact Hsub]. apply union_subseteq_r.
    + intros d name [<-|Hin]%elem_of_cons Hname; [|by eapply Hall].
      simpl in E0. injection E0 as <-.
      rewrite bool_decide_eq_true_2 in E by (rewrite Hname; eauto).
      simpl in E. rewrite Hname in E. simpl in E. inv_bind E. injection E as <-.
      exists x0. split; [exact E0|].
      apply Hsub, elem_of_union_l, elem_of_singleton. reflexivity.
Qed.

Lemma fetch_feeds_feed_in (feeds : list pyval) (clock : nat -> Z)
    (names : gset hkey) (a : pyval) :
  feed_names feeds = Ok names ->
  a ∈ new_articles (fetch_feeds feeds clock) ->
  feed_in names a.
Proof.
  intros Hn Ha. unfold fetch_feeds in Ha.
  apply fetch_feeds_from_elem in Ha as [Ha|(i & feed & r & Hi & Hr & Ha)];
    [by apply elem_of_nil in Ha|].
  destruct (fetch_feed_origin _ _ _ _ Hr Ha)
    as (d & name & url & e & -> & Hname & _ & _ & _ & Hk).
  apply kept_article in Hk as (t & _ & _ & ->).
  destruct (feed_names_grow _ _ _ Hn) as [_ Hall].
  destruct (Hall d name) as (k & Hk & Hin); [|exact Hname|].
  { apply list_elem_of_lookup. eauto. }
  exists name, k. auto.
Qed.

(** X15: every article the orchestrator returns belongs to a configured
    feed: its feed field is in the set of names [main] computes from the
    same feed list. *)
Theorem fetch_feeds_configured (feeds : list pyval) (clock : nat -> Z)
    (names : gset hkey) (a : pyval) :
  feed_names feeds = Ok names ->
  a ∈ new_articles (fetch_feeds feeds clock) ->
  feed_in names a.
Proof. apply fetch_feeds_feed_in. Qed.

End FetchShape.

(** ** A run of [main] up to the commit *)

Section MainRun.
Context `{Platform}.

Lemma read_cache_no_names (f : file_state) (now : Z) :
  read_cache f now ∅ = Ok [].
Proof.
  destruct (read_cache_returns f now ∅) as [[|a l] Hr]; [exact Hr|].
  pose proof (read_cache_items _ _ _ _ a Hr (list_elem_of_here _ _)) as Ha.
  apply cache_valid_true in Ha as [_ (feed & k & _ & _ & Hk)].
  by apply elem_of_empty in Hk.
Qed.

Lemma fetch_feeds_no_names (feeds : list pyval) (clock : nat -> Z) :
  feed_names feeds = Ok ∅ -> new_articles (fetch_feeds feeds clock) = [].
Proof.
  intros Hn. destruct (new_articles (fetch_feeds feeds clock)) as [|a l] eqn:Hl;
    [reflexivity|].
  destruct (fetch_feeds_feed_in feeds clock ∅ a Hn) as (feed & k & _ & _ & Hk).
  - rewrite Hl. left.
  - by apply elem_of_empty in Hk.
Qed.

Lemma fetch_feeds_from_silent (clock : nat -> Z) (feeds : list pyval) (i : nat)
    (acc : fetched) :
  (forall feed now r, feed ∈ feeds -> fetch_feed feed now = Ok r -> requested r = []) ->
  requested acc = [] ->
  requested (fetch_feeds_from clock i feeds acc) = [].
Proof.
  revert i acc. induction feeds as [|feed feeds IH]; intros i acc Hq Hacc; simpl.
  - exact Hacc.
  - apply IH.
    + intros f now r Hf. apply Hq. by right.
    + destruct (fetch_feed feed (clock i)) as [r|] eqn:Hr; [simpl | exact Hacc].
      rewrite Hacc, (Hq feed (clock i) r); [reflexivity | by left | exact Hr].
Qed.

Lemma fetch_feeds_no_requests (feeds : list pyval) (clock : nat -> Z) :
  feed_names feeds = Ok ∅ -> requested (fetch_feeds feeds clock) = [].
Proof.
  intros Hn. apply fetch_feeds_from_silent; [|reflexivity].
  intros feed now r Hin Hr.
  destruct (fetch_feed_request_cases _ _ _ Hr)
    as [[Hq _]|(d & name & url & -> & Hname & _)]; [exact Hq|].
  destruct (feed_names_grow _ _ _ Hn) as [_ Hall].
  destruct (Hall d name Hin Hname) as (k & _ & Hk). by apply elem_of_empty in Hk.
Qed.

(** X17: when [main] reaches the commit, every article of the merged list
    belongs to a feed named in the configuration and has a link that is
    hashable and is not the placeholder. *)
Theorem main_merged_configured (config_file : file_state) (d d' : disk) (t : clocks)
    (requests merged : list pyval) :
  main_refresh config_file d t = Ok (Refreshed d' requests merged) ->
  exists config feeds_value feeds names,
    json_load_file config_file = Ok config
    /\ py_get config "feeds" (VList []) = Ok feeds_value
    /\ py_iter feeds_value = Ok feeds
    /\ feed_names feeds = Ok names
    /\ forall a, a ∈ merged ->
         feed_in names a /\ exists k, link_key a = Ok k /\ k <> placeholder.
Proof.
  unfold main_refresh. intros Hrun.
  destruct (json_load_file config_file) as [config|]; [|discriminate].
  inv_bind Hrun. inv_bind Hrun. inv_bind Hrun. inv_bind Hrun. inv_bind Hrun.
  injection Hrun as _ _ <-.
  exists config, x, x0, x1. repeat (split; [done|]).
  intros a Ha.
  destruct (merge_result _ _ _ _ E3)
    as (_ & merged1 & seen & ks & added & _ & -> & Hinv & Hnew & Hcached).
  split; [|by eapply merge_inv_key].
  apply elem_of_app in Ha as [Ha|Ha].
  - eapply fetch_feeds_feed_in; [exact E1 | by apply Hnew].
  - pose proof (read_cache_items _ _ _ _ _ E2 (Hcached _ Ha)) as Hv.
    by apply cache_valid_true in Hv as [_ Hfeed].
Qed.

End MainRun.

(** ** The selection loop *)

Section Strip.

Lemma rstrip_chars_idem (cs : list ascii) :
  rstrip_chars (rstrip_chars cs) = rstrip_chars cs.
Proof.
  induction cs as [|c cs IH]; simpl; [reflexivity|].
  destruct (rstrip_chars cs) as [|c' r] eqn:Hr.
  - destruct (is_space c) eqn:Hc; simpl; [reflexivity|]. by rewrite Hc.
  - simpl in *. by rewrite IH.
Qed.

Lemma rstrip_chars_last (cs : list ascii) (c : ascii) :
  last (rstrip_chars cs) = Some c -> is_space c = false.
Proof.
  induction cs as [|c0 cs IH]; simpl; [discriminate|].
  destruct (rstrip_chars cs) as [|c' r] eqn:Hr.
  - destruct (is_space c0) eqn:Hc; simpl; [discriminate|]. by intros [= <-].
  - rewrite last_cons_cons. exact IH.
Qed.

Lemma rstrip_chars_head (c : ascii) (cs : list ascii) :
  rstrip_chars (c :: cs) = [] \/ exists r, rstrip_chars (c :: cs) = c :: r.
Proof.
  simpl. destruct (rstrip_chars cs); [|eauto].
  destruct (is_space c); eauto.
Qed.

Lemma lstrip_head (s : string) (c : ascii) (s' : string) :
  lstrip s = String c s' -> is_space c = false.
Proof.
  induction s as [|c0 s IH]; simpl; [discriminate|].
  destruct (is_space c0) eqn:Hc; [exact IH|]. by intros [= <- _].
Qed.

Lemma py_strip_idem (s : string) : py_strip (py_strip s) = py_strip s.
Proof.
  unfold py_strip.
  destruct (lstrip s) as [|c s'] eqn:Hs; [reflexivity|].
  pose proof (lstrip_head _ _ _ Hs) as Hc.
  change (list_ascii_of_string (String c s')) with (c :: list_ascii_of_string s').
  destruct (rstrip_chars_head c (list_ascii_of_string s')) as [Hr|[r Hr]];
    rewrite Hr; [reflexivity|].
  change (string_of_list_ascii (c :: r)) with (String c (string_of_list_ascii r)).
  cbn [lstrip]. rewrite Hc.
  change (String c (string_of_list_ascii r)) with (string_of_list_ascii (c :: r)).
  rewrite list_ascii_of_string_of_list_ascii, <- Hr.
  by rewrite rstrip_chars_idem.
Qed.

Lemma list_ascii_app (s1 s2 : string) :
  list_ascii_of_string (s1 ++ s2)%string
    = list_ascii_of_string s1 ++ list_ascii_of_string s2.
Proof. induction s1 as [|c s1 IH]; simpl; [reflexivity | by rewrite IH]. Qed.

(** A string that ends with white space is changed by [strip]. *)
Lemma py_strip_trailing (s : string) (c : ascii) :
  is_space c = true -> py_strip (s ++ String c EmptyString) <> (s ++ String c EmptyString)%string.
Proof.
  intros Hc Heq. apply (f_equal list_ascii_of_string) in Heq.
  unfold py_strip in Heq. rewrite list_ascii_of_string_of_list_ascii in Heq.
  rewrite (list_ascii_app s) in Heq. simpl in Heq.
  apply (f_equal last) in Heq. rewrite last_snoc in Heq.
  apply rstrip_chars_last in Heq. congruence.
Qed.

Lemma label_blank (s : string) :
  (s ++ " | " ++ "")%string = ((s ++ " |") ++ String " "%char EmptyString)%string.
Proof.
  induction s as [|c s IH]; [reflexivity|].
  change (String c (s ++ " | " ++ "") = String c ((s ++ " |") ++ String " "%char EmptyString))%string.
  by rewrite IH.
Qed.

End Strip.

Section SelectionLoop.
Context `{Display}.

Lemma selection_stripped (options : list string) (fzf : picker) (s : string) :
  get_fzf_selection options fzf = Some s -> py_strip s = s.
Proof.
  unfold get_fzf_selection. destruct options; [discriminate|].
  destruct (fzf _) as [returncode stdout].
  destruct (Z.eqb returncode 0); [|discriminate].
  intros [= <-]. apply py_strip_idem.
Qed.

(** X18: an article with an empty title cannot be selected.  Its label ends
    with the blank of ["feed | "], the picker's output is stripped before
    it is compared, so no run of the picker returns that label. *)
Theorem empty_title_unselectable (a : pyval) (l : string) (options : list string)
    (fzf : picker) :
  getitem a "title" = Ok (VStr "") ->
  label a = Ok l ->
  get_fzf_selection options fzf <> Some l.
Proof.
  intros Htitle Hl Hsel. apply selection_stripped in Hsel.
  unfold label in Hl. inv_bind Hl. rewrite Htitle in Hl. simpl in Hl.
  injection Hl as <-. rewrite py_str_text in Hsel.
  rewrite label_blank in Hsel. by apply py_strip_trailing in Hsel.
Qed.

(** X19: a selection acts on the first article with the selected label and
    on no other: the browser is opened on that article's link when the
    link is non-empty and is not the placeholder, and a message is printed
    otherwise.  When no label matches, nothing is done. *)
Theorem act_on_first_match (selected : string) (articles : list pyval)
    (outcome : option action) :
  act_on selected articles = Ok outcome ->
  match outcome with
  | None => forall a, a ∈ articles -> label a <> Ok selected
  | Some act =>
      exists (i : nat) (a link : pyval),
        articles !! i = Some a
        /\ label a = Ok selected
        /\ (forall (j : nat) (b : pyval),
              (j < i)%nat -> articles !! j = Some b -> label b <> Ok selected)
        /\ getitem a "link" = Ok link
        /\ act = if truthy link && negb (eq_str link "No link")
                 then OpenBrowser link else NoValidLink
  end.
Proof.
  revert outcome. induction articles as [|b articles IH]; intros outcome Hact;
    simpl in Hact.
  - injection Hact as <-. intros a Ha. by apply elem_of_nil in Ha.
  - apply bind_ok in Hact as (l & El & Hact).
    destruct (String.eqb_spec l selected) as [Heq|Hne].
    + apply bind_ok in Hact as (link & Elink & Hact).
      assert (outcome = Some (if truthy link && negb (eq_str link "No link")
                              then OpenBrowser link else NoValidLink)) as ->.
      { destruct (truthy link && negb (eq_str link "No link")); by injection Hact. }
      exists 0%nat, b, link. subst l. repeat split; try done. intros j c Hj. lia.
    + specialize (IH _ Hact). destruct outcome as [act|].
      * destruct IH as (i & a & link & Hi & Hl & Hfirst & Hlink & ->).
        exists (S i), a, link. repeat split; try done.
        intros [|j] c Hj Hc; simpl in Hc.
        -- injection Hc as <-. rewrite El. congruence.
        -- apply (Hfirst j); [lia | exact Hc].
      * intros a [->|Ha]%elem_of_cons; [rewrite El; congruence | by apply IH].
Qed.

Lemma act_on_open (selected : string) (articles : list pyval) (link : pyval) :
  act_on selected articles = Ok (Some (OpenBrowser link)) ->
  truthy link = true /\ eq_str link "No link" = false
  /\ exists a, a ∈ articles /\ getitem a "link" = Ok link /\ label a = Ok selected.
Proof.
  induction articles as [|b articles IH]; intros Hact; simpl in Hact; [discriminate|].
  apply bind_ok in Hact as (l & El & Hact).
  destruct (String.eqb_spec l selected) as [Heq|Hne].
  - apply bind_ok in Hact as (v & Ev & Hact).
    destruct (truthy v) eqn:Ht; simpl in Hact; [|discriminate].
    destruct (eq_str v "No link") eqn:Hp; simpl in Hact; [discriminate|].
    injection Hact as <-. subst l. repeat split; try done.
    exists b. split; [left|done].
  - destruct (IH Hact) as (Ht & Hp & a & Ha & Hl & Hs).
    repeat split; try done. exists a. split; [by right | done].
Qed.

(** What every action done by the loop satisfies. *)
Lemma browse_opens (merged : list pyval) (options : list string)
    (sessions : list picker) (acted : list action) (P : pyval -> Prop) :
  (forall selected link, py_strip selected = selected -> selected <> "" ->
     act_on selected merged = Ok (Some (OpenBrowser link)) -> P link) ->
  (forall link, OpenBrowser link ∈ acted -> P link) ->
  forall link, OpenBrowser link ∈ (browse merged options sessions acted).1 -> P link.
Proof.
  intros Hact. revert acted.
  induction sessions as [|fzf later IH]; intros acted Hdone link; simpl; [by apply Hdone|].
  destruct (get_fzf_selection options fzf) as [selected|] eqn:Hsel; [|by apply Hdone].
  destruct (String.eqb_spec selected "") as [->|Hne]; [by apply Hdone|].
  destruct (act_on selected merged) as [[act|]|e] eqn:Ha; simpl.
  - apply IH. intros l [Hl|Hl]%elem_of_app; [by apply Hdone|].
    apply list_elem_of_singleton in Hl as <-.
    eapply Hact; [by eapply selection_stripped | exact Hne | exact Ha].
  - by apply IH.
  - by apply Hdone.
Qed.

(** X20: whatever the picker answers, the browser is opened only on a link
    that is non-empty, is not the placeholder and is the link of an article
    of the merged list whose label is the selection; that label is
    non-empty and has no white space at either end. *)
Theorem main_select_opens_valid_links (merged : list pyval) (sessions : list picker)
    (link : pyval) :
  OpenBrowser link ∈ (main_select merged sessions).1 ->
  truthy link = true
  /\ eq_str link "No link" = false
  /\ exists a selected,
       a ∈ merged /\ getitem a "link" = Ok link
       /\ label a = Ok selected
       /\ py_strip selected = selected /\ selected <> "".
Proof.
  unfold main_select. destruct merged as [|m merged].
  { intros Hin. by apply elem_of_nil in Hin. }
  destruct (labels (m :: merged)) as [options|e].
  2: { intros Hin. by apply elem_of_nil in Hin. }
  revert link. apply browse_opens.
  - intros selected l Hs Hne (Ht & Hp & a & Ha & Hl & Hlab)%act_on_open.
    repeat split; try done. exists a, selected. auto.
  - intros l Hin. by apply elem_of_nil in Hin.
Qed.

(** X21: the loop ends at the first picker run that is declined, by a
    non-zero return code or an empty selection: the runs after it change
    nothing. *)
Theorem browse_stops_at_decline (merged : list pyval) (options : list string)
    (before after : list picker) (fzf : picker) (acted : list action) :
  get_fzf_selection options fzf = None \/ get_fzf_selection options fzf = Some "" ->
  browse merged options (before ++ fzf :: after) acted
    = browse merged options before acted.
Proof.
  intros Hdecline. revert acted.
  induction before as [|g before IH]; intros acted; simpl.
  - by destruct Hdecline as [->| ->].
  - destruct (get_fzf_selection options g) as [selected|]; [|reflexivity].
    destruct (String.eqb selected ""); [reflexivity|].
    destruct (act_on selected merged) as [[act|]|e]; auto.
Qed.

Lemma labels_raise (articles : list pyval) (a : pyval) :
  a ∈ articles -> is_ok (label a) = false -> is_ok (labels articles) = false.
Proof.
  induction 1 as [a l|a b l _ IH]; intros Ha; simpl.
  - by destruct (label a).
  - destruct (label b); simpl; [|reflexivity].
    specialize (IH Ha). by destruct (labels l).
Qed.

(** X22: an article without a ["title"] or a ["feed"] key stops [main]
    before the picker runs: the labels cannot be built, the exception
    leaves [main] and no action is done.  Neither [read_cache] nor the
    merge looks at the title, so such a record can come from the cache. *)
Theorem main_select_needs_labels (merged : list pyval) (sessions : list picker)
    (a : pyval) :
  a ∈ merged ->
  is_ok (label a) = false ->
  exists e, main_select merged sessions = ([], Some e).
Proof.
  intros Ha Hl. unfold main_select. destruct merged as [|m merged].
  { by apply elem_of_nil in Ha. }
  pose proof (labels_raise _ _ Ha Hl) as Hr.
  destruct (labels (m :: merged)) as [|e]; [discriminate | eauto].
Qed.

End SelectionLoop.

(** ** Worked cases for the further properties *)

Section RunCases.
#[local] Existing Instance Sample.platform.
#[local] Existing Instance Scene.display.
Import Sample Scene.

Example main_refresh_sample :
  main_refresh config cached_disk clock =
    Ok (Refreshed
          {| cache_file := Document (VDict
               [("timestamp", VStr "2024-01-02T12:00:00");
                ("articles", VList [recent; scheduled; cached_x; cached_y])]);
             writable := true |}
          [VStr "https://a.example/rss"; VStr "https://b.example/rss"]
          [recent; scheduled; cached_x; cached_y]).
Proof. vm_compute. reflexivity. Qed.

Example main_select_sample :
  main_select [recent; twin; untitled]
    [pick "A | Recent"; pick "A | "; pick "nothing"; cancel; pick "A | Recent"]
  = ([OpenBrowser (VStr "https://a.example/1")], None).
Proof. vm_compute. reflexivity. Qed.

Lemma read_cache_subsequence_witness :
  [cached_x; cached_y] = []
  \/ exists d items,
       Document (snapshot [cached_x; stale_z; retired_w; cached_y]) = Document (VDict d)
       /\ dict_lookup d "articles" = Some (VList items)
       /\ sublist [cached_x; cached_y] items.
Proof.
  apply (read_cache_subsequence _ now names). vm_compute. reflexivity.
Defined.

Lemma read_cache_more_names_witness :
  exists back',
    read_cache (Document (snapshot [cached_x; retired_w])) now
      ({[ KStr "C" ]} ∪ {[ KStr "A" ]}) = Ok back'
    /\ forall a, a ∈ [cached_x] -> a ∈ back'.
Proof.
  apply (read_cache_more_names _ now {[ KStr "A" ]}).
  - apply union_subseteq_r.
  - vm_compute. reflexivity.
Defined.

Lemma read_cache_expiry_witness :
  exists early late,
    read_cache (Document (snapshot [cached_x; cached_y])) now names = Ok early
    /\ read_cache (Document (snapshot [cached_x; cached_y]))
         (now + timedelta_hours 23) names = Ok late
    /\ forall a, a ∈ late -> a ∈ early.
Proof.
  apply (read_cache_expiry _ [cached_x; cached_y]).
  - reflexivity.
  - repeat constructor.
  - vm_compute. discriminate.
Defined.

Lemma merge_order_and_origin_witness :
  exists fresh kept,
    [fresh_x; cached_y] = fresh ++ kept
    /\ sublist fresh [fresh_x; unlinked]
    /\ sublist kept [cached_x; cached_y; retired_w]
    /\ Forall (feed_in names) kept.
Proof.
  apply (merge_order_and_origin [fresh_x; unlinked] [cached_x; cached_y; retired_w] names).
  vm_compute. reflexivity.
Defined.

Lemma merge_covers_links_witness :
  exists m, m ∈ [fresh_x; cached_y] /\ link_key m = Ok (KStr "y").
Proof.
  apply (merge_covers_links [fresh_x; unlinked] [cached_x; cached_y; retired_w] names
           [fresh_x; cached_y] cached_y (KStr "y")).
  - vm_compute. reflexivity.
  - right. split.
    + apply list_elem_of_further, list_elem_of_here.
    + exists (VStr "B"), (KStr "B"). split; [reflexivity|]. split; [reflexivity|].
      unfold names. apply elem_of_union_r, elem_of_singleton. reflexivity.
  - reflexivity.
  - discriminate.
Defined.

Lemma merge_raises_without_link_witness :
  is_ok (merge [fresh_x] [cached_y; no_link] names) = false.
Proof.
  apply (merge_raises_without_link _ _ _ no_link).
  - right. apply list_elem_of_further, list_elem_of_here.
  - reflexivity.
Defined.

Lemma merge_feed_test_redundant_witness :
  merge [fresh_x] [cached_x; cached_y] ({[ KStr "C" ]} ∪ names)
    = merge [fresh_x] [cached_x; cached_y] names.
Proof.
  apply (merge_feed_test_redundant
           (Document (snapshot [cached_x; stale_z; retired_w; cached_y])) now).
  - vm_compute. reflexivity.
  - apply union_subseteq_r.
Defined.

Lemma merge_idempotent_witness :
  merge [fresh_x; cached_y] [] names = Ok [fresh_x; cached_y]
  /\ (Forall (feed_in names) [fresh_x; cached_y] ->
      merge [] [fresh_x; cached_y] names = Ok [fresh_x; cached_y]).
Proof.
  apply (merge_idempotent [fresh_x; unlinked] [cached_x; cached_y; retired_w]).
  vm_compute. reflexivity.
Defined.

Lemma sample_feeds_current : Forall (feed_in names) [fresh_x; cached_y].
Proof.
  repeat constructor.
  - exists (VStr "A"), (KStr "A"). split; [reflexivity|]. split; [reflexivity|].
    unfold names. apply elem_of_union_l, elem_of_singleton. reflexivity.
  - exists (VStr "B"), (KStr "B"). split; [reflexivity|]. split; [reflexivity|].
    unfold names. apply elem_of_union_r, elem_of_singleton. reflexivity.
Defined.

Lemma sample_within_window :
  Forall (within_window (now + timedelta_hours 1)) [fresh_x; cached_y].
Proof.
  repeat constructor.
  - exists "2024-01-02T12:00:00", now. split; [reflexivity|].
    split; [vm_compute; reflexivity | vm_compute; discriminate].
  - exists "2024-01-02T10:00:00", (Reference.micros 2024 1 2 10 0 0 0).
    split; [reflexivity|].
    split; [vm_compute; reflexivity | vm_compute; discriminate].
Defined.

Lemma rerun_reproduces_witness :
  read_cache (cache_file (commit [fresh_x; cached_y] now now disk0))
    (now + timedelta_hours 1) names = Ok [fresh_x; cached_y]
  /\ merge [] [fresh_x; cached_y] names = Ok [fresh_x; cached_y].
Proof.
  apply (rerun_reproduces [fresh_x; unlinked] [cached_x; cached_y; retired_w]).
  - vm_compute. reflexivity.
  - reflexivity.
  - exact sample_within_window.
  - exact sample_feeds_current.
Defined.



Lemma normalize_within_window_witness :
  within_window now scheduled.
Proof.
  apply (normalize_within_window (VStr "A") now [recent_entry; future_entry; undated_entry]).
  - intros e t Hin Ht.
    repeat (apply elem_of_cons in Hin as [->|Hin]);
      try (by apply elem_of_nil in Hin);
      vm_compute in Ht; try discriminate;
      injection Ht as <-; vm_compute; reflexivity.
  - vm_compute. apply list_elem_of_further, list_elem_of_here.
Defined.

Lemma fetch_feeds_configured_witness :
  feed_in names scheduled.
Proof.
  apply (fetch_feeds_configured
           [feed_ref "A" "https://a.example/rss"; feed_ref "B" "https://b.example/rss"]
           (fun _ => now)).
  - vm_compute. reflexivity.
  - vm_compute. apply list_elem_of_further, list_elem_of_here.
Defined.

Lemma main_merged_configured_witness :
  exists config feeds_value feeds names,
    json_load_file Scene.config = Ok config
    /\ py_get config "feeds" (VList []) = Ok feeds_value
    /\ py_iter feeds_value = Ok feeds
    /\ feed_names feeds = Ok names
    /\ forall a, a ∈ [recent; scheduled; cached_x; cached_y] ->
         feed_in names a /\ exists k, link_key a = Ok k /\ k <> placeholder.
Proof.
  eapply (main_merged_configured Scene.config cached_disk _ clock).
  vm_compute. reflexivity.
Defined.

Lemma empty_title_unselectable_witness :
  get_fzf_selection ["A | Recent"; "A | "] (pick "A | ") <> Some "A | ".
Proof.
  apply (empty_title_unselectable untitled); reflexivity.
Defined.

Lemma act_on_first_match_witness :
  exists (i : nat) (a link : pyval),
    [untitled; recent; twin] !! i = Some a
    /\ label a = Ok "A | Recent"
    /\ (forall (j : nat) (b : pyval),
          (j < i)%nat -> [untitled; recent; twin] !! j = Some b ->
          label b <> Ok "A | Recent")
    /\ getitem a "link" = Ok link
    /\ OpenBrowser (VStr "https://a.example/1")
       = if truthy link && negb (eq_str link "No link")
         then OpenBrowser link else NoValidLink.
Proof.
  apply (act_on_first_match "A | Recent" [untitled; recent; twin]
           (Some (OpenBrowser (VStr "https://a.example/1")))).
  vm_compute. reflexivity.
Defined.

Lemma main_select_opens_valid_links_witness :
  truthy (VStr "https://a.example/1") = true
  /\ eq_str (VStr "https://a.example/1") "No link" = false
  /\ exists a selected,
       a ∈ [recent; twin; untitled]
       /\ getitem a "link" = Ok (VStr "https://a.example/1")
       /\ label a = Ok selected
       /\ py_strip selected = selected /\ selected <> "".
Proof.
  apply (main_select_opens_valid_links [recent; twin; untitled]
           [pick "A | Recent"; cancel]).
  vm_compute. apply list_elem_of_here.
Defined.

Lemma browse_stops_at_decline_witness :
  browse [recent; twin] ["A | Recent"; "A | Recent"]
    ([pick "A | Recent"] ++ cancel :: [pick "A | Recent"]) []
  = browse [recent; twin] ["A | Recent"; "A | Recent"] [pick "A | Recent"] [].
Proof. apply browse_stops_at_decline. left. reflexivity. Defined.

Lemma main_select_needs_labels_witness :
  exists e, main_select [recent; no_title] [pick "A | Recent"] = ([], Some e).
Proof.
  apply (main_select_needs_labels _ _ no_title).
  - apply list_elem_of_further, list_elem_of_here.
  - reflexivity.
Defined.

End RunCases.

(** ** Runs in which the file system refuses *)

Section Refusals.
Context `{Platform}.

(** With a directory that can be made and a file that can be removed,
    [main_run] is [main_refresh] on the disk. *)
Lemma main_run_refresh (config_file : file_state) (fs : filesystem) (t : clocks) :
  dir_creatable fs = true -> removable fs = true ->
  main_run config_file fs t =
    match main_refresh config_file (fs_disk fs) t with
    | Ok (Refreshed d requests merged) =>
        (with_disk fs d, Ok (Refreshed d requests merged))
    | Ok ConfigError => (fs, Ok ConfigError)
    | Raise e => (fs, Raise e)
    end.
Proof.
  intros Hdir Hrm. unfold main_run, main_refresh.
  destruct (json_load_file config_file) as [config|]; [|reflexivity].
  destruct (py_get config "feeds" (VList [])) as [feeds_value|]; [simpl|reflexivity].
  destruct (py_iter feeds_value) as [feeds|]; [simpl|reflexivity].
  destruct (feed_names feeds) as [names|]; [simpl|reflexivity].
  destruct (read_cache _ _ names) as [cached|]; [simpl|reflexivity].
  destruct (merge _ cached names) as [merged|]; [simpl|reflexivity].
  by rewrite (main_commit_smooth _ _ _ _ Hdir Hrm).
Qed.

(** X16: a run whose configuration names no feed, on a file system where
    the cache directory can be made and the cache file removed, ends with
    an empty merged list and without a cache file, whatever the cache file
    held: nothing is taken from the cache, no request is made, and the
    file is removed.  A configuration with no feeds at all is one such. *)
Theorem main_run_without_names (config_file : file_state) (fs : filesystem)
    (t : clocks) (config feeds_value : pyval) (feeds : list pyval) :
  json_load_file config_file = Ok config ->
  py_get config "feeds" (VList []) = Ok feeds_value ->
  py_iter feeds_value = Ok feeds ->
  feed_names feeds = Ok ∅ ->
  dir_creatable fs = true ->
  removable fs = true ->
  main_run config_file fs t =
    (with_disk fs {| cache_file := Missing; writable := writable (fs_disk fs) |},
     Ok (Refreshed {| cache_file := Missing; writable := writable (fs_disk fs) |}
           [] [])).
Proof.
  intros Hc Hf Hi Hn Hdir Hrm. unfold main_run. rewrite Hc, Hf. simpl.
  rewrite Hi. simpl. rewrite Hn. simpl. rewrite read_cache_no_names. simpl.
  rewrite (fetch_feeds_no_names _ _ Hn), (fetch_feeds_no_requests _ _ Hn).
  change (merge [] [] ∅) with (@Ok (list pyval) []). simpl.
  rewrite (main_commit_smooth _ _ _ _ Hdir Hrm).
  assert (commit [] (write_at t) (rewrite_at t) (fs_disk fs)
          = {| cache_file := Missing; writable := writable (fs_disk fs) |}) as ->.
  { destruct (fs_disk fs) as [f w]. unfold commit, write_cache, open_for_writing.
    simpl. destruct w; simpl; [reflexivity|]. by destruct f. }
  reflexivity.
Qed.

End Refusals.

Section RefusalCases.
Import Sample Scene Trouble.

(** C5 fails: with a cache file that can be written but not removed and an
    empty merged list, the sequence of [main] leaves an empty snapshot in
    the file, while the single commit of the design leaves the previous
    snapshot; in neither is the file absent, and both end in the exception
    of [os.remove]. *)
Lemma main_commit_leaves_empty_snapshot :
  @main_commit Sample.platform [] now now stuck =
    (with_disk stuck
       {| cache_file := Document (VDict [("timestamp", VStr "2024-01-02T12:00:00");
                                         ("articles", VList [])]);
          writable := true |},
     Some OSError)
  /\ @main_commit_spec Sample.platform [] now stuck = (stuck, Some OSError)
  /\ cache_file (fs_disk stuck) = Document (snapshot [cached_x]).
Proof. vm_compute. repeat split. Qed.

(** C5 as amended, at a file that can be removed. *)
Lemma main_commit_refines_spec_witness :
  dir_creatable free = true
  /\ removable free = true
  /\ @main_commit Sample.platform [] now now free
     = @main_commit_spec Sample.platform [] now free
  /\ (@main_commit Sample.platform [] now now free).2 = None
  /\ cache_file (fs_disk (@main_commit Sample.platform [] now now free).1) = Missing.
Proof.
  split; [reflexivity|]. split; [reflexivity|].
  apply (@main_commit_refines_spec Sample.platform [] now now free); reflexivity.
Defined.

(** C8 fails: a response with status 301 is not a success, yet
    [raise_for_status] lets it pass and its body is parsed: the fetch
    returns the two recent articles of the document. *)
Lemma fetch_feed_parses_redirect_body :
  @requests_get Trouble.platform (VStr "https://m.example/rss")
    = Ok {| status_code := 301; content := "<rss>a</rss>" |}
  /\ @fetch_feed Trouble.platform (feed_ref "M" "https://m.example/rss") now =
       Ok {| requested := [VStr "https://m.example/rss"];
             new_articles :=
               [article "M" "Recent" "https://a.example/1" "2024-01-02T11:00:00";
                article "M" "Scheduled" "https://a.example/2" "2024-01-02T13:00:00"] |}.
Proof. vm_compute. repeat split. Qed.

Lemma reference_status_rule (resp : response) :
  400 <= status_code resp < 600 -> is_ok (Reference.raise_for_status resp) = false.
Proof.
  intros [Hlo Hhi]. unfold Reference.raise_for_status.
  apply Z.leb_le in Hlo. apply Z.ltb_lt in Hhi. by rewrite Hlo, Hhi.
Qed.

(** C8 as amended, at a feed whose server answers 404. *)
Lemma fetch_feed_error_status_witness :
  exists r,
    @fetch_feed Trouble.platform (feed_ref "B" "https://b.example/rss") now = Ok r
    /\ new_articles r = [].
Proof.
  destruct (@fetch_feed_error_status Trouble.platform
              [("name", VStr "B"); ("url", VStr "https://b.example/rss")] now
              reference_status_rule)
    as (r & Hr & _ & Hurl).
  exists r. split; [exact Hr|].
  destruct (Hurl (VStr "https://b.example/rss") eq_refl) as [_ Hresp].
  destruct (Hresp {| status_code := 404; content := "gone" |} eq_refl) as [Hstatus _].
  apply Hstatus. simpl. lia.
Defined.

Lemma main_run_without_names_witness :
  @main_run Sample.platform unnamed_config free clock =
    (with_disk free {| cache_file := Missing; writable := writable (fs_disk free) |},
     Ok (Refreshed {| cache_file := Missing; writable := writable (fs_disk free) |}
           [] [])).
Proof.
  apply (@main_run_without_names Sample.platform unnamed_config free clock
           (VDict [("feeds", VList [VDict [("url", VStr "https://a.example/rss")]])])
           (VList [VDict [("url", VStr "https://a.example/rss")]])
           [VDict [("url", VStr "https://a.example/rss")]]);
    reflexivity.
Defined.

(** The same run on the file that cannot be removed: the exception of
    [os.remove] leaves [main] and the file holds an empty snapshot. *)
Example main_run_stuck :
  @main_run Sample.platform unnamed_config stuck clock =
    (with_disk stuck
       {| cache_file := Document (VDict [("timestamp", VStr "2024-01-02T12:00:00");
                                         ("articles", VList [])]);
          writable := true |},
     Raise OSError).
Proof. vm_compute. reflexivity. Qed.

End RefusalCases.
